(** * Kelsenia chat front end: the streamed-reply state machine of [Chat.tsx]

  A shallow embedding of [sendMessage], [startSmoothStream] and
  [stopSmoothStream] of [src/components/Chat.tsx], and the properties of
  the stream decoder and of the response assembler proved on it.

  Text is modelled by [string]: a sequence of code units, of which the
  8-bit ones are representable.  The byte decoder ([TextDecoder] in
  streaming mode) is outside the model: a chunk is the text it decodes to.
  The JavaScript built-ins the component relies on ([JSON.parse] and the
  conversions of numbers) and the number of arguments the engine accepts in
  one call are an interface, [JSRuntime]; the theorems hold for every
  implementation of it, and [Json.runtime] is one such implementation, used
  for the worked examples.

  Time is modelled by the order of events: the reveal ticker, the 100 ms
  callbacks and the polls of the waiting loop are events that may fall
  anywhere between the chunks.  Logging, scrolling and the elapsed-time
  counter are left out; a state update given to [setMessages] is taken to
  run at once. *)

From Stdlib Require Import Bool Ascii String List NArith ZArith Lia.
Import ListNotations.
Open Scope string_scope.

Set Implicit Arguments.
Set Warnings "-register-all".

(** ** Text primitives of the host language *)

Module Text.

(** [WhiteSpace] and [LineTerminator] code units below 256, the ones
    [String.prototype.trim] removes. *)
Definition is_space (c : ascii) : bool :=
  let n := nat_of_ascii c in
  ((9 <=? n)%nat && (n <=? 13)%nat) || (n =? 32)%nat || (n =? 160)%nat.

Definition newline : ascii := "010"%char.

Fixpoint trimStart (s : string) : string :=
  match s with
  | EmptyString => EmptyString
  | String c s' => if is_space c then trimStart s' else s
  end.

Fixpoint trimEnd (s : string) : string :=
  match s with
  | EmptyString => EmptyString
  | String c s' =>
      match trimEnd s' with
      | EmptyString => if is_space c then EmptyString else String c EmptyString
      | t => String c t
      end
  end.

Definition trim (s : string) : string := trimEnd (trimStart s).

Definition startsWith (s p : string) : bool := String.prefix p s.

(** [s.includes(p)] *)
Fixpoint includes (s p : string) : bool :=
  String.prefix p s ||
  match s with
  | EmptyString => false
  | String _ s' => includes s' p
  end.

(** [s.indexOf(p)]: position of the first occurrence, [-1] if none. *)
Fixpoint indexOf (s p : string) : Z :=
  if String.prefix p s then 0%Z
  else match s with
       | EmptyString => (-1)%Z
       | String _ s' =>
           let i := indexOf s' p in
           if (i <? 0)%Z then (-1)%Z else (i + 1)%Z
       end.

Definition clamp (len i : Z) : Z := Z.min (Z.max i 0) len.

(** [s.substring(a, b)]: both indices are clamped to [0, length], and
    swapped when the first is the larger. *)
Definition substring (s : string) (a b : Z) : string :=
  let len := Z.of_nat (String.length s) in
  let a' := clamp len a in
  let b' := clamp len b in
  let lo := Z.min a' b' in
  let hi := Z.max a' b' in
  String.substring (Z.to_nat lo) (Z.to_nat (hi - lo)) s.

(** [s.split('\n')]: never empty; the last element is what follows the
    last newline. *)
Fixpoint split_newline (s : string) : list string :=
  match s with
  | EmptyString => [EmptyString]
  | String c s' =>
      if Ascii.eqb c newline then EmptyString :: split_newline s'
      else match split_newline s' with
           | [] => [String c EmptyString]
           | h :: t => String c h :: t
           end
  end.

(** [s.split('')] *)
Fixpoint chars (s : string) : list string :=
  match s with
  | EmptyString => []
  | String c s' => String c EmptyString :: chars s'
  end.

(** [l.join('')] *)
Definition join (l : list string) : string := String.concat "" l.

Definition nonempty (s : string) : bool :=
  match s with EmptyString => false | _ => true end.

End Text.

(** ** Values of the host language *)

(** What [JSON.parse] can return, and [undefined], which reading an absent
  property gives.  A number is kept as a decimal literal denoting it: the
  component only tests numbers for truthiness and converts them to text,
  and both operations belong to [JSRuntime]. *)
Inductive value : Type :=
| Undefined
| Null
| Bool (b : bool)
| Number (literal : string)
| Str (s : string)
| Arr (elems : list value)
| Obj (fields : list (string * value)).

Inductive exn : Type := SyntaxError | TypeError | RangeError.

Inductive result (A : Type) : Type :=
| Ok (a : A)
| Throw (e : exn).
Arguments Ok {A} a.
Arguments Throw {A} e.

Class JSRuntime : Type := {
  (** [JSON.parse]; [None] is a [SyntaxError]. *)
  JSON_parse : string -> option value;
  (** [ToBoolean] on a number: false for zeros and NaN. *)
  Number_truthy : string -> bool;
  (** [Number.prototype.toString] *)
  Number_toString : string -> string;
  (** Whether a call with that many arguments fits the argument limit of
      the engine.  [push(...chars)] passes one argument per element of
      [chars]; a call that does not fit throws a [RangeError]. *)
  Spread_fits : nat -> bool
}.

Section Values.
Context {rt : JSRuntime}.

(** [ToBoolean] *)
Definition truthy (v : value) : bool :=
  match v with
  | Undefined | Null => false
  | Bool b => b
  | Number n => Number_truthy n
  | Str s => Text.nonempty s
  | Arr _ | Obj _ => true
  end.

(** [v === 'lit'] for a string literal *)
Definition is_str (v : value) (lit : string) : bool :=
  match v with
  | Str s => String.eqb s lit
  | _ => false
  end.

(** An object built by [JSON.parse] keeps, for a repeated key, the last
    value. *)
Fixpoint find_last (k : string) (fields : list (string * value)) : option value :=
  match fields with
  | [] => None
  | (k', v) :: rest =>
      match find_last k rest with
      | Some later => Some later
      | None => if String.eqb k' k then Some v else None
      end
  end.

Definition lookup (k : string) (fields : list (string * value)) : value :=
  match find_last k fields with
  | Some v => v
  | None => Undefined
  end.

(** [v.k] for the property names the component reads ([type], [content],
    [output], [json]): none of them is defined on the prototypes of
    strings, numbers, booleans or arrays. *)
Definition getProp (k : string) (v : value) : result value :=
  match v with
  | Undefined | Null => Throw TypeError
  | Obj fields => Ok (lookup k fields)
  | _ => Ok Undefined
  end.

(** [ToString], which [+=] and [JSON.parse] apply to a value that is not
    a string. *)
Fixpoint ToString (v : value) : string :=
  match v with
  | Undefined => "undefined"
  | Null => "null"
  | Bool true => "true"
  | Bool false => "false"
  | Number n => Number_toString n
  | Str s => s
  | Arr l =>
      (fix joinElems (l : list value) : string :=
         match l with
         | [] => ""
         | x :: rest =>
             let sx := match x with
                       | Undefined | Null => ""
                       | _ => ToString x
                       end in
             match rest with
             | [] => sx
             | _ => sx ++ "," ++ joinElems rest
             end
         end) l
  | Obj _ => "[object Object]"
  end.

(** [v + s] where [s] is a string: string concatenation. *)
Definition plus_string (v : value) (s : string) : value :=
  Str (ToString v ++ s).

(** [content.includes(x)]: defined on strings and on arrays. *)
Definition js_includes (v : value) (x : string) : result bool :=
  match v with
  | Str s => Ok (Text.includes s x)
  | Arr l => Ok (existsb (fun e => is_str e x) l)
  | _ => Throw TypeError
  end.

Fixpoint arr_indexOf (l : list value) (x : string) : Z :=
  match l with
  | [] => (-1)%Z
  | e :: rest =>
      if is_str e x then 0%Z
      else let i := arr_indexOf rest x in
           if (i <? 0)%Z then (-1)%Z else (i + 1)%Z
  end.

Definition js_indexOf (v : value) (x : string) : result Z :=
  match v with
  | Str s => Ok (Text.indexOf s x)
  | Arr l => Ok (arr_indexOf l x)
  | _ => Throw TypeError
  end.

(** [content.substring(a, b)]: strings only. *)
Definition js_substring (v : value) (a b : Z) : result string :=
  match v with
  | Str s => Ok (Text.substring s a b)
  | _ => Throw TypeError
  end.

(** [content.split('')]: strings only. *)
Definition js_split_chars (v : value) : result (list string) :=
  match v with
  | Str s => Ok (Text.chars s)
  | _ => Throw TypeError
  end.

(** What [for (const item of v)] iterates over. *)
Definition iterate (v : value) : result (list value) :=
  match v with
  | Arr l => Ok l
  | Str s => Ok (map Str (Text.chars s))
  | _ => Throw TypeError
  end.

End Values.

(** ** The state of one reply *)

Inductive MessageType : Type := user | assistant | error.

(** [interface Message].  [content] is declared a string, but it is assigned
    [data.content] of a decoded record, which can be any value. *)
Record Message : Type := mkMessage {
  type : MessageType;
  content : value;
  timestamp : string
}.

(** The callbacks handed to [setTimeout(..., 100)].  Each closes over the
    [assistantMessage] of the call of [sendMessage] that registered it. *)
Inductive Callback : Type :=
| FinalizeTerminator (assistantMessage : Message) (finalContent : string)
    (* after an <end>...</end> item *)
| FinalizeEnd (assistantMessage : Message).
    (* after a record of type end *)

(** The points at which [sendMessage] waits. *)
Inductive Phase : Type :=
| Fetching    (* await fetch(...) *)
| Reading     (* await reader.read() *)
| Draining    (* the loop that waits for the queue to empty *)
| Returned.   (* the call is over *)

Record State : Type := mkState {
  (** the transcript ([messages], React state) *)
  messages : list Message;
  (** [isLoading], React state *)
  isLoading : bool;
  (** [loadingIntervalRef.current] is set: the elapsed-time ticker runs *)
  loadingInterval : bool;
  (** [streamBufferRef.current], the pending-character queue *)
  streamBuffer : list string;
  (** [streamIntervalRef.current] is set: the reveal ticker runs *)
  streamInterval : bool;
  (** [currentContentRef.current] *)
  currentContent : value;
  (** [isInResponseTagRef.current] *)
  isInResponseTag : bool;
  (** [responseContentRef.current] *)
  responseContent : value;
  (** [finalContentRef.current] *)
  finalContent : value;
  (** [hasSeenTagsRef.current] *)
  hasSeenTags : bool;
  (** the local [assistantMessage] of the call in progress, which the
      reveal ticker closes over *)
  assistantMessage : Message;
  (** the local [buffer]: the incomplete last line *)
  buffer : string;
  (** the local [firstChunk] *)
  firstChunk : string;
  (** the local [isJsonArray] *)
  isJsonArray : bool;
  (** the 100 ms callbacks registered and not yet run, oldest first *)
  timeouts : list Callback;
  (** where [sendMessage] is suspended *)
  phase : Phase;
  (** what [formatTimestamp()] returns now *)
  clock : string
}.

(** Field updates. *)
Definition set_messages (x : list Message) (s : State) : State :=
  mkState x (isLoading s) (loadingInterval s) (streamBuffer s)
    (streamInterval s) (currentContent s) (isInResponseTag s)
    (responseContent s) (finalContent s) (hasSeenTags s)
    (assistantMessage s) (buffer s) (firstChunk s) (isJsonArray s)
    (timeouts s) (phase s) (clock s).

Definition set_isLoading (x : bool) (s : State) : State :=
  mkState (messages s) x (loadingInterval s) (streamBuffer s)
    (streamInterval s) (currentContent s) (isInResponseTag s)
    (responseContent s) (finalContent s) (hasSeenTags s)
    (assistantMessage s) (buffer s) (firstChunk s) (isJsonArray s)
    (timeouts s) (phase s) (clock s).

Definition set_loadingInterval (x : bool) (s : State) : State :=
  mkState (messages s) (isLoading s) x (streamBuffer s) (streamInterval s)
    (currentContent s) (isInResponseTag s) (responseContent s)
    (finalContent s) (hasSeenTags s) (assistantMessage s) (buffer s)
    (firstChunk s) (isJsonArray s) (timeouts s) (phase s) (clock s).

Definition set_streamBuffer (x : list string) (s : State) : State :=
  mkState (messages s) (isLoading s) (loadingInterval s) x
    (streamInterval s) (currentContent s) (isInResponseTag s)
    (responseContent s) (finalContent s) (hasSeenTags s)
    (assistantMessage s) (buffer s) (firstChunk s) (isJsonArray s)
    (timeouts s) (phase s) (clock s).

Definition set_streamInterval (x : bool) (s : State) : State :=
  mkState (messages s) (isLoading s) (loadingInterval s) (streamBuffer s) x
    (currentContent s) (isInResponseTag s) (responseContent s)
    (finalContent s) (hasSeenTags s) (assistantMessage s) (buffer s)
    (firstChunk s) (isJsonArray s) (timeouts s) (phase s) (clock s).

Definition set_currentContent (x : value) (s : State) : State :=
  mkState (messages s) (isLoading s) (loadingInterval s) (streamBuffer s)
    (streamInterval s) x (isInResponseTag s) (responseContent s)
    (finalContent s) (hasSeenTags s) (assistantMessage s) (buffer s)
    (firstChunk s) (isJsonArray s) (timeouts s) (phase s) (clock s).

Definition set_isInResponseTag (x : bool) (s : State) : State :=
  mkState (messages s) (isLoading s) (loadingInterval s) (streamBuffer s)
    (streamInterval s) (currentContent s) x (responseContent s)
    (finalContent s) (hasSeenTags s) (assistantMessage s) (buffer s)
    (firstChunk s) (isJsonArray s) (timeouts s) (phase s) (clock s).

Definition set_responseContent (x : value) (s : State) : State :=
  mkState (messages s) (isLoading s) (loadingInterval s) (streamBuffer s)
    (streamInterval s) (currentContent s) (isInResponseTag s) x
    (finalContent s) (hasSeenTags s) (assistantMessage s) (buffer s)
    (firstChunk s) (isJsonArray s) (timeouts s) (phase s) (clock s).

Definition set_finalContent (x : value) (s : State) : State :=
  mkState (messages s) (isLoading s) (loadingInterval s) (streamBuffer s)
    (streamInterval s) (currentContent s) (isInResponseTag s)
    (responseContent s) x (hasSeenTags s) (assistantMessage s) (buffer s)
    (firstChunk s) (isJsonArray s) (timeouts s) (phase s) (clock s).

Definition set_hasSeenTags (x : bool) (s : State) : State :=
  mkState (messages s) (isLoading s) (loadingInterval s) (streamBuffer s)
    (streamInterval s) (currentContent s) (isInResponseTag s)
    (responseContent s) (finalContent s) x (assistantMessage s) (buffer s)
    (firstChunk s) (isJsonArray s) (timeouts s) (phase s) (clock s).

Definition set_assistantMessage (x : Message) (s : State) : State :=
  mkState (messages s) (isLoading s) (loadingInterval s) (streamBuffer s)
    (streamInterval s) (currentContent s) (isInResponseTag s)
    (responseContent s) (finalContent s) (hasSeenTags s) x (buffer s)
    (firstChunk s) (isJsonArray s) (timeouts s) (phase s) (clock s).

Definition set_buffer (x : string) (s : State) : State :=
  mkState (messages s) (isLoading s) (loadingInterval s) (streamBuffer s)
    (streamInterval s) (currentContent s) (isInResponseTag s)
    (responseContent s) (finalContent s) (hasSeenTags s)
    (assistantMessage s) x (firstChunk s) (isJsonArray s) (timeouts s)
    (phase s) (clock s).

Definition set_firstChunk (x : string) (s : State) : State :=
  mkState (messages s) (isLoading s) (loadingInterval s) (streamBuffer s)
    (streamInterval s) (currentContent s) (isInResponseTag s)
    (responseContent s) (finalContent s) (hasSeenTags s)
    (assistantMessage s) (buffer s) x (isJsonArray s) (timeouts s) (phase s)
    (clock s).

Definition set_isJsonArray (x : bool) (s : State) : State :=
  mkState (messages s) (isLoading s) (loadingInterval s) (streamBuffer s)
    (streamInterval s) (currentContent s) (isInResponseTag s)
    (responseContent s) (finalContent s) (hasSeenTags s)
    (assistantMessage s) (buffer s) (firstChunk s) x (timeouts s) (phase s)
    (clock s).

Definition set_timeouts (x : list Callback) (s : State) : State :=
  mkState (messages s) (isLoading s) (loadingInterval s) (streamBuffer s)
    (streamInterval s) (currentContent s) (isInResponseTag s)
    (responseContent s) (finalContent s) (hasSeenTags s)
    (assistantMessage s) (buffer s) (firstChunk s) (isJsonArray s) x
    (phase s) (clock s).

Definition set_phase (x : Phase) (s : State) : State :=
  mkState (messages s) (isLoading s) (loadingInterval s) (streamBuffer s)
    (streamInterval s) (currentContent s) (isInResponseTag s)
    (responseContent s) (finalContent s) (hasSeenTags s)
    (assistantMessage s) (buffer s) (firstChunk s) (isJsonArray s)
    (timeouts s) x (clock s).

Definition set_clock (x : string) (s : State) : State :=
  mkState (messages s) (isLoading s) (loadingInterval s) (streamBuffer s)
    (streamInterval s) (currentContent s) (isInResponseTag s)
    (responseContent s) (finalContent s) (hasSeenTags s)
    (assistantMessage s) (buffer s) (firstChunk s) (isJsonArray s)
    (timeouts s) (phase s) x.

(** ** State and exceptions *)

(** A computation changes the state and either returns or throws; what it
    did to the state before throwing stays done. *)
Definition M (A : Type) : Type := State -> State * result A.

Definition ret {A} (a : A) : M A := fun s => (s, Ok a).

Definition bind {A B} (m : M A) (k : A -> M B) : M B :=
  fun s => match m s with
           | (s', Ok a) => k a s'
           | (s', Throw e) => (s', Throw e)
           end.

Definition lift {A} (r : result A) : M A := fun s => (s, r).

Definition gets {A} (f : State -> A) : M A := fun s => (s, Ok (f s)).

Definition modify (f : State -> State) : M unit := fun s => (f s, Ok tt).

(** [try { m } catch (e) { h e }] *)
Definition try_catch {A} (m : M A) (h : exn -> M A) : M A :=
  fun s => match m s with
           | (s', Ok a) => (s', Ok a)
           | (s', Throw e) => h e s'
           end.

Notation "x <- m ;; k" := (bind m (fun x => k))
  (at level 61, m at next level, right associativity).
Notation "m ;; k" := (bind m (fun _ => k))
  (at level 61, right associativity).

(** How the body of a loop iteration ends. *)
Inductive Completion : Type :=
| Next       (* falls through to the next iteration *)
| Break      (* break *)
| Return.    (* return *)

(** ** The component *)

Section Chat.
Context {rt : JSRuntime}.

(** [{ ...m, content: c }] *)
Definition withContent (m : Message) (c : value) : Message :=
  mkMessage (type m) c (timestamp m).

(** [setMessages(prev => [...prev.slice(0, -1), m])].  The updater is taken
    to run at once. *)
Definition replaceLast (m : Message) (s : State) : State :=
  set_messages (removelast (messages s) ++ [m]) s.

(** [setTimeout(cb, 100)] *)
Definition setTimeout (cb : Callback) (s : State) : State :=
  set_timeouts (timeouts s ++ [cb]) s.

(** [stopSmoothStream] (lines 149-159) *)
Definition stopSmoothStream (s : State) : State :=
  let s1 := if streamInterval s then set_streamInterval false s else s in
  match streamBuffer s1 with
  | [] => s1
  | _ :: _ =>
      set_streamBuffer []
        (set_currentContent
           (plus_string (currentContent s1) (Text.join (streamBuffer s1))) s1)
  end.

(** The callback [startSmoothStream] gives to [setInterval]
    (lines 134-146): one element of the queue per tick. *)
Definition tick (s : State) : State :=
  match streamBuffer s with
  | [] => s
  | c :: rest =>
      let chunk := if Text.nonempty c then c else "" in
      let s1 := set_streamBuffer rest s in
      let s2 := set_currentContent (plus_string (currentContent s1) chunk) s1 in
      replaceLast (withContent (assistantMessage s2) (currentContent s2)) s2
  end.

(** [stopLoadingTimer] (lines 181-188); the elapsed time it resets is not
    part of the state. *)
Definition stopLoadingTimer (s : State) : State :=
  if loadingInterval s then set_loadingInterval false s else s.

(** Lines 295-303: a [content] that parses as JSON with a truthy [output]
    is replaced by that [output]; any exception leaves it as it is. *)
Definition unwrapOutput (content0 : value) : value :=
  match JSON_parse (ToString content0) with
  | Some parsed =>
      match getProp "output" parsed with
      | Ok out => if truthy out then out else content0
      | Throw _ => content0
      end
  | None => content0
  end.

(** The queue with [chars] appended. *)
Definition enqueue (chars : list string) (s : State) : State :=
  set_streamBuffer (streamBuffer s ++ chars) s.

(** [streamBufferRef.current.push(...chars)] (lines 345, 352, 416 and
    432): a call with one argument per character, which throws when they
    are too many for the engine and then leaves the queue as it was. *)
Definition push (chars : list string) : M unit :=
  if Spread_fits (List.length chars) then modify (enqueue chars)
  else lift (Throw RangeError).

(** Lines 305-353: the tag rules, applied to the content of an item. *)
Definition tagRules (content : value) : M Completion :=
  if is_str content "<response>" then
    modify (set_hasSeenTags true) ;;
    modify (set_isInResponseTag true) ;;
    modify (set_responseContent (Str "")) ;;
    ret Next
  else if is_str content "</response>" then
    modify (set_isInResponseTag false) ;;
    modify (fun s => set_responseContent (currentContent s) s) ;;
    ret Next
  else
    hasOpen <- lift (js_includes content "<end>") ;;
    hasClose <- (if hasOpen : bool then lift (js_includes content "</end>")
                 else ret false) ;;
    if hasOpen && hasClose then
      i <- lift (js_indexOf content "<end>") ;;
      let startIdx := (i + 5)%Z in
      endIdx <- lift (js_indexOf content "</end>") ;;
      sub <- lift (js_substring content startIdx endIdx) ;;
      let finalContent := Text.trim sub in
      modify stopSmoothStream ;;
      modify (fun s =>
                setTimeout (FinalizeTerminator (assistantMessage s) finalContent) s) ;;
      ret Break
    else
      inTag <- gets isInResponseTag ;;
      if inTag : bool then
        chars <- lift (js_split_chars content) ;;
        push chars ;;
        ret Next
      else
        seen <- gets hasSeenTags ;;
        noAngle <- (if seen : bool then
                      b <- lift (js_includes content "<") ;; ret (negb b)
                    else ret false) ;;
        if seen && noAngle then ret Next
        else if negb seen then
          chars <- lift (js_split_chars content) ;;
          push chars ;;
          ret Next
        else ret Next.

(** Lines 294-353: an item with a truthy content. *)
Definition handleItem (content0 : value) : M Completion :=
  tagRules (unwrapOutput content0).

(** Lines 293-389: one decoded record. *)
Definition handleRecord (data : value) : M Completion :=
  ty <- lift (getProp "type" data) ;;
  c <- (if is_str ty "item" then lift (getProp "content" data)
        else ret Undefined) ;;
  if is_str ty "item" && truthy c then handleItem c
  else if is_str ty "final" || is_str ty "replace" then
    modify stopSmoothStream ;;
    c' <- lift (getProp "content" data) ;;
    modify (set_currentContent c') ;;
    modify (fun s => replaceLast (withContent (assistantMessage s) c') s) ;;
    ret Next
  else if is_str ty "end" then
    seen <- gets hasSeenTags ;;
    if negb seen then
      modify stopSmoothStream ;;
      modify (fun s => setTimeout (FinalizeEnd (assistantMessage s)) s) ;;
      ret Return
    else ret Next
  else ret Next.

(** [JSON.parse(text)] as a computation. *)
Definition parse (text : string) : M value :=
  match JSON_parse text with
  | Some v => ret v
  | None => lift (Throw SyntaxError)
  end.

(** Lines 287-393: one line, with its [try]/[catch]. *)
Definition handleLine (line : string) : M Completion :=
  if Text.nonempty (Text.trim line) then
    try_catch
      (data <- parse (Text.trim line) ;; handleRecord data)
      (fun _ => ret Next)
  else ret Next.

(** The [for (const line of lines)] loop of line 286.  [break] leaves this
    loop, not the enclosing [while]. *)
Fixpoint forLines (lines : list string) : M Completion :=
  match lines with
  | [] => ret Next
  | line :: rest =>
      c <- handleLine line ;;
      match c with
      | Next => forLines rest
      | Break => ret Next
      | Return => ret Return
      end
  end.

(** Lines 268-394: what one iteration of the [while] loop does with a
    chunk. *)
Definition onChunk (chunk : string) : M Completion :=
  first <- gets firstChunk ;;
  (if negb (Text.nonempty first) && Text.startsWith (Text.trim chunk) "["
   then modify (set_isJsonArray true) else ret tt) ;;
  modify (fun s => set_firstChunk (firstChunk s ++ chunk) s) ;;
  modify (fun s => set_buffer (buffer s ++ chunk) s) ;;
  lines <- gets (fun s => Text.split_newline (buffer s)) ;;
  modify (set_buffer (last lines "")) ;;
  forLines (removelast lines).

(** Line 411: [item.json || item] *)
Definition unwrapJson (item : value) : result value :=
  match getProp "json" item with
  | Ok j => Ok (if truthy j then j else item)
  | Throw e => Throw e
  end.

(** Lines 410-425: one element of a batch array. *)
Definition handleArrayItem (item : value) : M unit :=
  data <- lift (unwrapJson item) ;;
  ty <- lift (getProp "type" data) ;;
  c <- (if is_str ty "item" then lift (getProp "content" data)
        else ret Undefined) ;;
  if is_str ty "item" && truthy c then
    chars <- lift (js_split_chars c) ;;
    push chars
  else if is_str ty "replace" || is_str ty "final" then
    modify stopSmoothStream ;;
    c' <- lift (getProp "content" data) ;;
    modify (set_currentContent c') ;;
    modify (fun s => replaceLast (withContent (assistantMessage s) c') s)
  else ret tt.

Fixpoint forItems (items : list value) : M unit :=
  match items with
  | [] => ret tt
  | item :: rest => handleArrayItem item ;; forItems rest
  end.

(** Lines 400-438: what is left in [buffer] when the stream ends. *)
Definition onResidue : M unit :=
  text <- gets (fun s => Text.trim (buffer s)) ;;
  if Text.nonempty text then
    try_catch
      (if Text.startsWith text "[" then
         jsonArray <- parse text ;;
         items <- lift (iterate jsonArray) ;;
         forItems items
       else
         data <- parse text ;;
         ty <- lift (getProp "type" data) ;;
         c <- (if is_str ty "item" then lift (getProp "content" data)
               else ret Undefined) ;;
         if is_str ty "item" && truthy c then
           chars <- lift (js_split_chars c) ;;
           push chars
         else ret tt)
      (fun _ => ret tt)
  else ret tt.

(** The [finally] block (lines 462-465), after which the call is over. *)
Definition finally (s : State) : State :=
  set_phase Returned (stopLoadingTimer (set_isLoading false s)).

(** The [catch] block (lines 451-461). *)
Definition catchError (s : State) : State :=
  replaceLast
    (mkMessage error (Str "Error connecting to server. Please try again.")
       (clock s))
    (stopSmoothStream s).

(** Lines 445-449, reached when the queue is found empty. *)
Definition complete (s : State) : State :=
  stopLoadingTimer (set_isLoading false (stopSmoothStream s)).

(** One test of the waiting loop of lines 442-444. *)
Definition drain (s : State) : State :=
  match streamBuffer s with
  | [] => finally (complete s)
  | _ :: _ => set_phase Draining s
  end.

(** Lines 440-450. *)
Definition afterStream (s : State) : State :=
  if negb (truthy (finalContent s)) then drain s else finally s.

(** The callbacks of lines 327-338 and 373-382.  The message they write
    is the one they closed over; the refs and the transcript they read are
    those of the moment at which they run. *)
Definition runCallback (cb : Callback) (s : State) : State :=
  match cb with
  | FinalizeTerminator assistantMessage finalContent =>
      let s1 := set_currentContent (Str finalContent) s in
      let s2 := replaceLast
                  (withContent assistantMessage (Str finalContent)) s1 in
      stopLoadingTimer (set_isLoading false s2)
  | FinalizeEnd assistantMessage =>
      let s1 := if truthy (currentContent s)
                then replaceLast
                       (withContent assistantMessage (currentContent s)) s
                else s in
      stopLoadingTimer (set_isLoading false s1)
  end.

(** What can happen to a reply in flight.  The event loop runs one of these
    at a time. *)
Inductive Event : Type :=
| Responded (ok hasBody : bool)  (* fetch resolves *)
| Rejected                       (* fetch or reader.read() rejects *)
| Chunk (text : string)          (* reader.read() gives a chunk *)
| Done                           (* reader.read() reports the end *)
| Tick                           (* the reveal ticker fires *)
| Timeout                        (* the oldest 100 ms callback runs *)
| Poll                           (* the waiting loop wakes up *)
| Clock (now : string).          (* time passes *)

Definition step (s : State) (e : Event) : State :=
  match e, phase s with
  | Responded ok hasBody, Fetching =>
      if ok && hasBody then set_phase Reading s
      else finally (catchError s)
  | Rejected, (Fetching | Reading) => finally (catchError s)
  | Chunk text, Reading =>
      match onChunk text s with
      | (s', Ok Return) => finally s'
      | (s', Ok _) => s'
      | (s', Throw _) => finally (catchError s')
      end
  | Done, Reading =>
      match onResidue s with
      | (s', Ok _) => afterStream s'
      | (s', Throw _) => finally (catchError s')
      end
  | Poll, Draining => drain s
  | Tick, _ => if streamInterval s then tick s else s
  | Timeout, _ =>
      match timeouts s with
      | [] => s
      | cb :: rest => runCallback cb (set_timeouts rest s)
      end
  | Clock now, _ => set_clock now s
  | _, _ => s
  end.

Definition run (s : State) (es : list Event) : State := fold_left step es s.

(** Lines 196-225: the state in which [sendMessage] awaits [fetch], for a
    transcript [prev] and a trimmed input [userMessage]. *)
Definition start (prev : list Message) (userMessage now : string) : State :=
  let assistantMessage := mkMessage assistant (Str "") now in
  {| messages := prev ++ [mkMessage user (Str userMessage) now; assistantMessage];
     isLoading := true;
     loadingInterval := true;
     streamBuffer := [];
     streamInterval := true;
     currentContent := Str "";
     isInResponseTag := false;
     responseContent := Str "";
     finalContent := Str "";
     hasSeenTags := false;
     assistantMessage := assistantMessage;
     buffer := "";
     firstChunk := "";
     isJsonArray := false;
     timeouts := [];
     phase := Fetching;
     clock := now |}.

(** The text shown for the reply: the content of the last message. *)
Definition visibleText (s : State) : value :=
  match last (map Some (messages s)) None with
  | Some m => content m
  | None => Undefined
  end.

End Chat.

(** ** The decoder and the assembler, apart from timing

    What the loop of lines 286-394 decodes a line to, and a summary of a
    whole stream that does not depend on when chunks and ticks arrive. *)

Inductive Envelope : Type :=
| Item (text : string)      (* an item whose content, unwrapped, is a non-empty string *)
| Replace (content : value) (* a final or replace record *)
| End                       (* an end record *)
| Ignored.                  (* anything else: blank, malformed, of another type *)

(** The summary of the records seen so far. *)
Record Reveal : Type := mkReveal {
  (** the content of the last final or replace record, the empty string
      if there was none *)
  base : value;
  (** the item text accepted since *)
  appended : string;
  inTagged : bool;
  seenTag : bool;
  (** an end record has closed the reply *)
  ended : bool
}.

Section Reference.
Context {rt : JSRuntime}.

(** The case analysis of lines 288-389 on one line. *)
Definition decode (line : string) : Envelope :=
  let text := Text.trim line in
  if Text.nonempty text then
    match JSON_parse text with
    | None => Ignored
    | Some data =>
        match getProp "type" data with
        | Throw _ => Ignored
        | Ok ty =>
            if is_str ty "item" then
              match getProp "content" data with
              | Ok c =>
                  if truthy c then
                    match unwrapOutput c with
                    | Str t => Item t
                    | _ => Ignored
                    end
                  else Ignored
              | Throw _ => Ignored
              end
            else if is_str ty "final" || is_str ty "replace" then
              match getProp "content" data with
              | Ok c => Replace c
              | Throw _ => Ignored
              end
            else if is_str ty "end" then End
            else Ignored
        end
    end
  else Ignored.

(** An item that carries the <end>...</end> terminator (line 316). *)
Definition terminator (e : Envelope) : bool :=
  match e with
  | Item t =>
      negb (String.eqb t "<response>") && negb (String.eqb t "</response>")
      && Text.includes t "<end>" && Text.includes t "</end>"
  | _ => false
  end.

(** Rules 1, 2, 4, 5, 6, 7 and 8 of the assembler on the summary; an item
    that is a terminator is not expected here.  An item too long for one
    call of [push] is dropped by the [catch] of line 390. *)
Definition feed (r : Reveal) (e : Envelope) : Reveal :=
  if ended r then r
  else match e with
       | Item t =>
           if String.eqb t "<response>" then
             mkReveal (base r) (appended r) true true false
           else if String.eqb t "</response>" then
             mkReveal (base r) (appended r) false (seenTag r) false
           else if inTagged r || negb (seenTag r) then
             if Spread_fits (String.length t) then
               mkReveal (base r) (appended r ++ t) (inTagged r) (seenTag r) false
             else r
           else r
       | Replace v => mkReveal v "" (inTagged r) (seenTag r) false
       | End =>
           if seenTag r then r
           else mkReveal (base r) (appended r) (inTagged r) (seenTag r) true
       | Ignored => r
       end.

Definition initial : Reveal := mkReveal (Str "") "" false false false.

(** [v] followed by the text [t], as [+=] builds it. *)
Definition combine (v : value) (t : string) : value :=
  match t with
  | EmptyString => v
  | _ => plus_string v t
  end.

Definition final (r : Reveal) : value := combine (base r) (appended r).

(** The lines of a text that a newline ends, and what follows the last
    newline. *)
Definition completeLines (t : string) : list string :=
  removelast (Text.split_newline t).

Definition residue (t : string) : string := last (Text.split_newline t) "".

Definition envelopes (t : string) : list Envelope := map decode (completeLines t).

Definition summary (t : string) : Reveal := fold_left feed (envelopes t) initial.

(** The text a whole stream ends up showing. *)
Definition render (t : string) : value := final (summary t).

(** The concatenation, in order, of the item contents, without the tags and
    without what arrives outside a tagged section once a tag was seen. *)
Fixpoint shown (inTag seen : bool) (es : list Envelope) : string :=
  match es with
  | [] => ""
  | Item t :: rest =>
      if String.eqb t "<response>" then shown true true rest
      else if String.eqb t "</response>" then shown false seen rest
      else if inTag || negb seen then t ++ shown inTag seen rest
      else shown inTag seen rest
  | _ :: rest => shown inTag seen rest
  end.

Definition itemsOnly (es : list Envelope) : bool :=
  forallb (fun e => match e with Item _ | Ignored => true | _ => false end) es.

(** Every item is short enough for one call of [push]. *)
Definition fitting (es : list Envelope) : bool :=
  forallb (fun e => match e with
                    | Item t => Spread_fits (String.length t)
                    | _ => true
                    end) es.

(** No complete line of the text is a terminator. *)
Definition noTerminator (t : string) : bool :=
  forallb (fun e => negb (terminator e)) (envelopes t).

(** A stream of newline-terminated records none of which is a
    terminator. *)
Definition wellFormed (t : string) : bool :=
  noTerminator t && negb (Text.nonempty (Text.trim (residue t))).

(** The text the reader delivers in a run: the chunks up to the end of the
    stream. *)
Fixpoint streamOf (es : list Event) : string :=
  match es with
  | [] => ""
  | Chunk t :: rest => t ++ streamOf rest
  | Done :: _ => ""
  | _ :: rest => streamOf rest
  end.

Definition noFailure (es : list Event) : bool :=
  forallb (fun e => match e with Rejected => false | _ => true end) es.

(** The reply is over: [sendMessage] has returned and no callback is
    pending. *)
Definition finished (s : State) : Prop :=
  phase s = Returned /\ timeouts s = [].

(** The state in which the first [reader.read()] is awaited. *)
Definition connected (prev : list Message) (userMessage now : string) : State :=
  step (start prev userMessage now) (Responded true true).

(** What lines 293-389 do with a line, by what it decodes to; an exception
    of the tag rules ends in the [catch] of line 390. *)
Definition handleEnvelope (e : Envelope) : M Completion :=
  match e with
  | Item t => try_catch (tagRules (Str t)) (fun _ => ret Next)
  | Replace c =>
      fun s => (replaceLast (withContent (assistantMessage s) c)
                  (set_currentContent c (stopSmoothStream s)), Ok Next)
  | End =>
      fun s => if hasSeenTags s then (s, Ok Next)
               else (setTimeout (FinalizeEnd (assistantMessage s))
                       (stopSmoothStream s), Ok Return)
  | Ignored => ret Next
  end.

(** The transport failures: a rejected [fetch] or [read], a response that
    is not ok, a response without a body. *)
Definition failure (e : Event) (p : Phase) : bool :=
  match e, p with
  | Rejected, (Fetching | Reading) => true
  | Responded ok hasBody, Fetching => negb (ok && hasBody)
  | _, _ => false
  end.

(** What handling lines and array elements leaves untouched. *)
Definition sameControl (s s' : State) : Prop :=
  phase s' = phase s /\ isLoading s' = isLoading s /\
  loadingInterval s' = loadingInterval s /\
  assistantMessage s' = assistantMessage s /\
  buffer s' = buffer s /\ finalContent s' = finalContent s /\
  clock s' = clock s.

(** How the state of a reply in flight relates to the summary of the
    records handled so far. *)
Definition Tracks (s : State) (r : Reveal) : Prop :=
  isInResponseTag s = inTagged r /\
  hasSeenTags s = seenTag r /\
  finalContent s = Str "" /\
  visibleText s = currentContent s /\
  timeouts s = [] /\
  if streamInterval s then
    base r = Str "" /\
    exists x rest, currentContent s = Str x /\
                   streamBuffer s = Text.chars rest /\
                   x ++ rest = appended r
  else
    currentContent s = base r /\ streamBuffer s = Text.chars (appended r).

(** Right after an end record was handled, before its callback runs. *)
Definition Closing (s : State) (r : Reveal) : Prop :=
  streamInterval s = false /\
  timeouts s = [FinalizeEnd (assistantMessage s)] /\
  currentContent s = final r /\
  (visibleText s = final r \/ truthy (final r) = true).

(** After an end record closed the reply. *)
Definition Closed (s : State) (r : Reveal) : Prop :=
  phase s = Returned /\ streamInterval s = false /\
  ((timeouts s = [FinalizeEnd (assistantMessage s)] /\
    currentContent s = final r /\
    (visibleText s = final r \/ truthy (final r) = true))
   \/ (timeouts s = [] /\ visibleText s = final r)).

(** After the waiting loop let [sendMessage] return. *)
Definition Settled (s : State) (r : Reveal) : Prop :=
  phase s = Returned /\ streamInterval s = false /\ timeouts s = [] /\
  visibleText s = final r.

(** While the stream is read. *)
Definition Streaming (s : State) (t : string) : Prop :=
  if ended (summary t) then Closed s (summary t)
  else phase s = Reading /\ buffer s = residue t /\ Tracks s (summary t).

(** Once the stream has ended. *)
Definition Ending (s : State) (r : Reveal) : Prop :=
  if ended r then Closed s r
  else (phase s = Draining /\ Tracks s r) \/ Settled s r.

End Reference.

(** ** A JSON reader

    An implementation of [JSRuntime] for the worked examples: the JSON
    grammar of ECMA-404 on 8-bit text.  A [\u] escape above 00FF has no
    code unit in this model of text and is refused.  A number is kept as
    its literal: it is truthy when its mantissa has a digit other than 0
    (underflow to zero is not detected), and it prints as its literal. *)

Module Json.

Definition is_ws (c : ascii) : bool :=
  let n := nat_of_ascii c in
  (n =? 32)%nat || (n =? 9)%nat || (n =? 10)%nat || (n =? 13)%nat.

Fixpoint skip_ws (s : string) : string :=
  match s with
  | String c r => if is_ws c then skip_ws r else s
  | EmptyString => s
  end.

Definition is_digit (c : ascii) : bool :=
  let n := nat_of_ascii c in (48 <=? n)%nat && (n <=? 57)%nat.

Definition hex_digit (c : ascii) : option nat :=
  let n := nat_of_ascii c in
  if (48 <=? n)%nat && (n <=? 57)%nat then Some (n - 48)
  else if (65 <=? n)%nat && (n <=? 70)%nat then Some (n - 55)
  else if (97 <=? n)%nat && (n <=? 102)%nat then Some (n - 87)
  else None.

Definition escape (c : ascii) : option ascii :=
  match c with
  | "034"%char => Some "034"%char
  | "\"%char => Some "\"%char
  | "/"%char => Some "/"%char
  | "b"%char => Some "008"%char
  | "f"%char => Some "012"%char
  | "n"%char => Some "010"%char
  | "r"%char => Some "013"%char
  | "t"%char => Some "009"%char
  | _ => None
  end.

(** The characters of a string literal after its opening quote, and what
    follows the closing quote. *)
Fixpoint string_body (s : string) : option (string * string) :=
  match s with
  | EmptyString => None
  | String "034" r => Some (EmptyString, r)
  | String "\" (String "u" (String a (String b (String c (String d r))))) =>
      match hex_digit a, hex_digit b, hex_digit c, hex_digit d, string_body r with
      | Some 0, Some 0, Some h, Some l, Some (t, r') =>
          Some (String (ascii_of_nat (16 * h + l)) t, r')
      | _, _, _, _, _ => None
      end
  | String "\" (String e r) =>
      match escape e, string_body r with
      | Some c, Some (t, r') => Some (String c t, r')
      | _, _ => None
      end
  | String "\" EmptyString => None
  | String c r =>
      if (nat_of_ascii c <? 32)%nat then None
      else match string_body r with
           | Some (t, r') => Some (String c t, r')
           | None => None
           end
  end.

(** The longest prefix of digits, and the rest. *)
Fixpoint digits (s : string) : string * string :=
  match s with
  | String c r =>
      if is_digit c then let (d, r') := digits r in (String c d, r')
      else (EmptyString, s)
  | EmptyString => (EmptyString, s)
  end.

(** A number literal: an optional minus sign, an integer part with no
    leading zero, an optional fraction, an optional exponent. *)
Definition number (s : string) : option (string * string) :=
  let (sign, s1) := match s with
                    | String "-" r => ("-", r)
                    | _ => ("", s)
                    end in
  let (int, s2) := digits s1 in
  match int with
  | EmptyString => None
  | String "0" (String _ _) => None
  | _ =>
      let frac := match s2 with
                  | String "." r =>
                      let (d, r') := digits r in
                      match d with
                      | EmptyString => None
                      | _ => Some ("." ++ d, r')
                      end
                  | _ => Some ("", s2)
                  end in
      match frac with
      | None => None
      | Some (f, s3) =>
          let exp := match s3 with
                     | String e r =>
                         if Ascii.eqb e "e" || Ascii.eqb e "E" then
                           let (sg, r1) := match r with
                                           | String "+" r' => ("+", r')
                                           | String "-" r' => ("-", r')
                                           | _ => ("", r)
                                           end in
                           let (d, r2) := digits r1 in
                           match d with
                           | EmptyString => None
                           | _ => Some (String e (sg ++ d), r2)
                           end
                         else Some ("", s3)
                     | EmptyString => Some ("", s3)
                     end in
          match exp with
          | None => None
          | Some (x, s4) => Some (sign ++ int ++ f ++ x, s4)
          end
      end
  end.

Definition keyword (k : string) (v : value) (s : string) : option (value * string) :=
  if String.prefix k s
  then Some (v, String.substring (String.length k) (String.length s - String.length k) s)
  else None.

Fixpoint value_ (fuel : nat) (s : string) : option (value * string) :=
  match fuel with
  | O => None
  | S fuel' =>
      match skip_ws s with
      | String "{" r =>
          match skip_ws r with
          | String "}" r' => Some (Obj [], r')
          | _ => match members fuel' r with
                 | Some (fs, r') => Some (Obj fs, r')
                 | None => None
                 end
          end
      | String "[" r =>
          match skip_ws r with
          | String "]" r' => Some (Arr [], r')
          | _ => match elements fuel' r with
                 | Some (vs, r') => Some (Arr vs, r')
                 | None => None
                 end
          end
      | String "034" r =>
          match string_body r with
          | Some (t, r') => Some (Str t, r')
          | None => None
          end
      | String "t" _ as s' => keyword "true" (Bool true) s'
      | String "f" _ as s' => keyword "false" (Bool false) s'
      | String "n" _ as s' => keyword "null" Null s'
      | s' => match number s' with
              | Some (n, r) => Some (Number n, r)
              | None => None
              end
      end
  end
with elements (fuel : nat) (s : string) : option (list value * string) :=
  match fuel with
  | O => None
  | S fuel' =>
      match value_ fuel' s with
      | Some (v, r) =>
          match skip_ws r with
          | String "," r' =>
              match elements fuel' r' with
              | Some (vs, r'') => Some (v :: vs, r'')
              | None => None
              end
          | String "]" r' => Some ([v], r')
          | _ => None
          end
      | None => None
      end
  end
with members (fuel : nat) (s : string) : option (list (string * value) * string) :=
  match fuel with
  | O => None
  | S fuel' =>
      match skip_ws s with
      | String "034" r =>
          match string_body r with
          | Some (k, r1) =>
              match skip_ws r1 with
              | String ":" r2 =>
                  match value_ fuel' r2 with
                  | Some (v, r3) =>
                      match skip_ws r3 with
                      | String "," r4 =>
                          match members fuel' r4 with
                          | Some (fs, r5) => Some ((k, v) :: fs, r5)
                          | None => None
                          end
                      | String "}" r4 => Some ([(k, v)], r4)
                      | _ => None
                      end
                  | None => None
                  end
              | _ => None
              end
          | None => None
          end
      | _ => None
      end
  end.

Definition parse (s : string) : option value :=
  match value_ (2 * String.length s + 2) s with
  | Some (v, r) =>
      match skip_ws r with
      | EmptyString => Some v
      | _ => None
      end
  | None => None
  end.

(** The mantissa of the literal has a digit other than 0. *)
Fixpoint nonzero (s : string) : bool :=
  match s with
  | EmptyString => false
  | String c r =>
      if Ascii.eqb c "e" || Ascii.eqb c "E" then false
      else (is_digit c && negb (Ascii.eqb c "0")) || nonzero r
  end.

(** The number of arguments a call takes differs between engines, and in
    some depends on the room left on the stack.  The examples take the
    limit JavaScriptCore documents, 65536, the smallest of the major
    engines; their inputs lie either far below it or above every
    engine's. *)
Definition fits (n : nat) : bool := (N.of_nat n <=? 65536)%N.

Definition runtime : JSRuntime :=
  {| JSON_parse := parse; Number_truthy := nonzero;
     Number_toString := fun n => n; Spread_fits := fits |}.

End Json.

(** ** Worked inputs *)

Module Wire.

(** The quotation mark, and a quoted word. *)
Definition dq : string := String "034"%char EmptyString.
Definition q (s : string) : string := dq ++ s ++ dq.
Definition nl : string := String Text.newline EmptyString.

(** The record [{"type":ty,"content":c}], with [c] a string without escapes. *)
Definition record (ty c : string) : string :=
  "{" ++ q "type" ++ ":" ++ q ty ++ "," ++ q "content" ++ ":" ++ q c ++ "}".

(** The record [{"type":ty}]. *)
Definition signal (ty : string) : string :=
  "{" ++ q "type" ++ ":" ++ q ty ++ "}".

(** The state in which the first [reader.read()] is awaited, for an empty
    transcript. *)
Definition reading : State := @connected Json.runtime [] "hi" "12:00".

Definition go (es : list Event) : State := @run Json.runtime reading es.

(** An item and the end signal: the first example of the specification. *)
Definition hello : string := record "item" "Hello" ++ nl ++ signal "end" ++ nl.

(** An item followed by a replacement. *)
Definition replaced : string :=
  record "item" "a" ++ nl ++ record "replace" "b" ++ nl.

(** A terminator, and a record that follows it. *)
Definition terminated : string := record "item" "<end>A</end>" ++ nl.
Definition afterwards : string := record "replace" "B" ++ nl.

(** A batch array with one element. *)
Definition batch : string := "[" ++ record "item" "Hi" ++ "]".

(** A tagged section, then filler. *)
Definition tagged : string :=
  record "item" "<response>" ++ nl ++ record "item" "Hi there" ++ nl
  ++ record "item" "</response>" ++ nl ++ record "item" "bye" ++ nl.

(** The same text in one chunk, shown before the stream ends, and in two
    chunks cut inside a record, shown after it ended. *)
Definition atOnce : list Event :=
  (Chunk tagged :: repeat Tick 8 ++ [Done])%list.

Definition inPieces : list Event :=
  (Chunk (String.substring 0 20 tagged)
   :: Tick
   :: Chunk (String.substring 20 (String.length tagged - 20) tagged)
   :: Done :: repeat Tick 8 ++ [Poll])%list.

(** What is not JSON, followed by an item. *)
Definition garbled : string := "{oops" ++ nl ++ record "item" "ok" ++ nl.

(** The replace record of the third example of the specification: after an
    item, as the last record of the stream with no newline after it, as a
    line, and as a batch array. *)
Definition corrected : string := record "replace" "Corrected text".

Definition unterminated : list Event :=
  (Chunk (record "item" "Hello" ++ nl) :: Chunk corrected :: Done
   :: repeat Tick 5 ++ [Poll])%list.

Definition asLine : list Event :=
  [Chunk (record "item" "Hello" ++ nl); Chunk (corrected ++ nl); Done].

Definition asBatch : list Event :=
  [Chunk (record "item" "Hello" ++ nl); Chunk ("[" ++ corrected ++ "]"); Done].

(** A text of [n] characters. *)
Definition filler (n : positive) : string := Pos.iter (String "a"%char) "" n.

(** A batch array whose one item holds 524288 characters. *)
Definition longBatch : list Event :=
  [Chunk ("[" ++ record "item" (filler 524288) ++ "]"); Done].

End Wire.

(** ** Submitting, and what is displayed *)

Section Submit.
Context {rt : JSRuntime}.

(** [startSmoothStream] (lines 126-147): a ticker that runs is cleared and
    a new one is set; its callback is [tick]. *)
Definition startSmoothStream (s : State) : State := set_streamInterval true s.

(** [startLoadingTimer] (lines 169-179); the start time and the elapsed
    time are not part of the state. *)
Definition startLoadingTimer (s : State) : State := set_loadingInterval true s.

(** Lines 190-225: what [sendMessage] does with the text of the input
    field before it awaits [fetch].  The state describes one call: this is
    the code for a state in which no earlier call is still waiting. *)
Definition sendMessage (inputMessage : string) (s : State) : State :=
  if negb (Text.nonempty (Text.trim inputMessage)) || isLoading s then s
  else
    let userMessage := Text.trim inputMessage in
    let userMessageObj := mkMessage user (Str userMessage) (clock s) in
    let s1 := set_messages (messages s ++ [userMessageObj]) s in
    let s2 := startLoadingTimer (set_isLoading true s1) in
    let assistantMessage := mkMessage assistant (Str "") (clock s2) in
    let s3 := set_assistantMessage assistantMessage
                (set_messages (messages s2 ++ [assistantMessage]) s2) in
    let s4 := set_hasSeenTags false
                (set_finalContent (Str "")
                   (set_responseContent (Str "")
                      (set_isInResponseTag false
                         (set_streamBuffer []
                            (set_currentContent (Str "") s3))))) in
    let s5 := startSmoothStream s4 in
    set_phase Fetching
      (set_isJsonArray false (set_firstChunk "" (set_buffer "" s5))).

End Submit.

(** What [MessageContent] (lines 30-49) returns: the typing indicator with
    the elapsed time, the content handed to [marked] and inserted as HTML,
    or the content as plain text. *)
Inductive View (E : Type) : Type :=
| Typing (elapsedTime : E)
| Markdown (source : value)
| PlainText (text : value).
Arguments Typing {E} elapsedTime.
Arguments Markdown {E} source.
Arguments PlainText {E} text.

(** What [MessageBubble] (lines 51-92) returns: the label above the
    message, its time, whether it is the bubble on the right, and its
    body. *)
Record Bubble (E : Type) : Type := mkBubble {
  label : string;
  time : string;
  onRight : bool;
  body : View E
}.
Arguments mkBubble {E} label time onRight body.
Arguments label {E} b.
Arguments time {E} b.
Arguments onRight {E} b.
Arguments body {E} b.

Section Display.
Context {rt : JSRuntime}.
Variable E : Type.

Definition isAssistant (t : MessageType) : bool :=
  match t with assistant => true | _ => false end.

Definition MessageContent (message : Message) (isLoading : bool)
    (elapsedTime : E) : View E :=
  if isAssistant (type message) && is_str (content message) "" && isLoading
  then Typing elapsedTime
  else if isAssistant (type message) && truthy (content message)
  then Markdown (content message)
  else PlainText (content message).

Definition MessageBubble (message : Message) (isLoading : bool)
    (elapsedTime : E) : Bubble E :=
  match type message with
  | assistant =>
      mkBubble "Assistant" (timestamp message) false
        (MessageContent message isLoading elapsedTime)
  | error =>
      mkBubble "System" (timestamp message) false
        (MessageContent message isLoading elapsedTime)
  | user =>
      mkBubble "You" (timestamp message) true
        (MessageContent message isLoading elapsedTime)
  end.

(** [messages.map((message, index) => ...)] of lines 510-517, from index
    [index] on, for a transcript of [total] messages. *)
Fixpoint bubblesFrom (index total : nat) (ms : list Message)
    (isLoading : bool) (elapsedTime : E) : list (Bubble E) :=
  match ms with
  | [] => []
  | message :: rest =>
      MessageBubble message (isLoading && (index =? total - 1)%nat) elapsedTime
      :: bubblesFrom (S index) total rest isLoading elapsedTime
  end.

(** The message list of lines 503-518; an empty transcript shows the
    invitation to start, here no bubble. *)
Definition bubbles (s : State) (elapsedTime : E) : list (Bubble E) :=
  bubblesFrom 0 (List.length (messages s)) (messages s) (isLoading s) elapsedTime.

End Display.

(** ** What a reply keeps *)

Section Keeping.
Context {rt : JSRuntime}.

(** The entries a reply puts at the end of the transcript: the assistant
    message with some content, or the error message. *)
Definition replyEntry (assistantMessage m : Message) : Prop :=
  (exists c, m = withContent assistantMessage c) \/
  (exists t, m = mkMessage error
                   (Str "Error connecting to server. Please try again.") t).

Definition singleChar (c : string) : Prop := String.length c = 1.

(** The message a callback closed over. *)
Definition closesOver (m : Message) (cb : Callback) : Prop :=
  match cb with
  | FinalizeTerminator m' _ => m' = m
  | FinalizeEnd m' => m' = m
  end.

(** What no step of a reply changes: the message of the call,
    [finalContentRef], the queue being made of single characters and,
    when the pending callbacks are those of this call, that being so and
    the transcript but for its last entry. *)
Definition Keeps (s s' : State) : Prop :=
  assistantMessage s' = assistantMessage s /\
  finalContent s' = finalContent s /\
  (Forall singleChar (streamBuffer s) -> Forall singleChar (streamBuffer s')) /\
  (Forall (closesOver (assistantMessage s)) (timeouts s) ->
   Forall (closesOver (assistantMessage s)) (timeouts s') /\
   (messages s' = messages s \/
    exists m, replyEntry (assistantMessage s) m /\
              messages s' = (removelast (messages s) ++ [m])%list)).

(** An element of a batch array that is an item with the non-empty string
    content [c]. *)
Definition itemOf (item : value) (c : string) : Prop :=
  exists data,
    unwrapJson item = Ok data /\
    getProp "type" data = Ok (Str "item") /\
    getProp "content" data = Ok (Str c) /\
    c <> "".


End Keeping.

(** * Properties *)

(** ** Text *)

Section TextFacts.

Lemma append_nil_r (s : string) : s ++ "" = s.
Proof. induction s as [|c s IH]; simpl; [reflexivity | now rewrite IH]. Qed.

Lemma append_assoc (a b c : string) : (a ++ b) ++ c = a ++ (b ++ c).
Proof. induction a as [|x a IH]; simpl; [reflexivity | now rewrite IH]. Qed.

Lemma append_eq_nil (a b : string) : a ++ b = "" -> a = "" /\ b = "".
Proof. destruct a; simpl; intros H; [now split | discriminate]. Qed.

Lemma join_chars (s : string) : Text.join (Text.chars s) = s.
Proof.
  unfold Text.join.
  induction s as [|c s IH]; simpl; [reflexivity |].
  destruct (Text.chars s) as [|h t] eqn:E.
  - simpl in IH. now subst.
  - simpl. simpl in IH. now rewrite IH.
Qed.

Lemma chars_app (a b : string) :
  Text.chars (a ++ b) = (Text.chars a ++ Text.chars b)%list.
Proof. induction a as [|c a IH]; simpl; [reflexivity | now rewrite IH]. Qed.

Lemma chars_nil (s : string) : Text.chars s = [] -> s = "".
Proof. destruct s; simpl; [reflexivity | discriminate]. Qed.

Lemma split_newline_nonempty (s : string) : Text.split_newline s <> [].
Proof.
  induction s as [|c s IH]; simpl; [discriminate |].
  destruct (Ascii.eqb c Text.newline); [discriminate |].
  destruct (Text.split_newline s); discriminate.
Qed.

(** Splitting a text in two pieces and splitting each piece, the second
    after what the first left over, gives the same lines. *)
Lemma split_newline_app (x y : string) :
  Text.split_newline (x ++ y)
  = (removelast (Text.split_newline x)
     ++ Text.split_newline (last (Text.split_newline x) "" ++ y))%list.
Proof.
  induction x as [|c x IH]; [reflexivity |].
  cbn [append Text.split_newline].
  destruct (Ascii.eqb c Text.newline) eqn:Ec.
  - rewrite IH.
    pose proof (split_newline_nonempty x) as Hx.
    destruct (Text.split_newline x) as [|h t]; [congruence |].
    reflexivity.
  - rewrite IH.
    pose proof (split_newline_nonempty x) as Hx.
    destruct (Text.split_newline x) as [|h t]; [congruence |].
    destruct t as [|h' t'].
    + cbn [removelast last app append Text.split_newline]. now rewrite Ec.
    + reflexivity.
Qed.

End TextFacts.

(** ** The decoder *)

Section DecoderFacts.
Context {rt : JSRuntime}.

Lemma stopSmoothStream_assistantMessage (s : State) :
  assistantMessage (stopSmoothStream s) = assistantMessage s.
Proof.
  destruct s as [? ? ? buf iv ? ? ? ? ? ? ? ? ? ? ? ?].
  unfold stopSmoothStream. destruct iv, buf; reflexivity.
Qed.

Ltac unfold_m :=
  unfold handleItem, tagRules, push, bind, lift, ret, modify, gets, try_catch,
    parse in *.

Lemma push_unfold (chars : list string) (s : State) :
  push chars s = if Spread_fits (List.length chars)
                 then (enqueue chars s, Ok tt)
                 else (s, Throw RangeError).
Proof. unfold push. now destruct (Spread_fits (List.length chars)). Qed.

Lemma length_chars (t : string) : List.length (Text.chars t) = String.length t.
Proof. induction t as [|c t IH]; cbn; [reflexivity | now rewrite IH]. Qed.

(** The tag rules leave the state alone when the content is not a string:
    they fall through or throw before changing anything. *)
Lemma tagRules_other (v : value) (s : State) :
  (forall t, v <> Str t) ->
  tagRules v s = (s, Ok Next) \/ exists e, tagRules v s = (s, Throw e).
Proof.
  intros Hv. destruct v as [| |b|n|t|l|fs];
    try (right; exists TypeError; reflexivity).
  - now elim (Hv t).
  - unfold_m. cbn.
    destruct (existsb (fun e => is_str e "<end>") l); cbn.
    + destruct (existsb (fun e => is_str e "</end>") l); cbn.
      * right. now exists TypeError.
      * destruct (isInResponseTag s); cbn; [right; now exists TypeError |].
        destruct (hasSeenTags s); cbn.
        -- destruct (existsb (fun e => is_str e "<") l); cbn; now left.
        -- right. now exists TypeError.
    + destruct (isInResponseTag s); cbn; [right; now exists TypeError |].
      destruct (hasSeenTags s); cbn.
      * destruct (existsb (fun e => is_str e "<") l); cbn; now left.
      * right. now exists TypeError.
Qed.

(** A line is handled according to what it decodes to. *)
Lemma handleLine_decode (line : string) (s : State) :
  handleLine line s = handleEnvelope (decode line) s.
Proof.
  unfold handleLine, decode.
  destruct (Text.nonempty (Text.trim line)); [| reflexivity].
  unfold try_catch, bind at 1, parse.
  destruct (JSON_parse (Text.trim line)) as [data|]; [| reflexivity].
  unfold ret at 1. unfold handleRecord, bind at 1, lift at 1.
  destruct (getProp "type" data) as [ty|e] eqn:Ety; [| reflexivity].
  destruct (is_str ty "item") eqn:Eitem.
  - unfold bind at 1, lift at 1.
    destruct (getProp "content" data) as [c|e]; [| reflexivity].
    cbn [andb]. destruct (truthy c) eqn:Ec.
    + unfold handleItem.
      destruct (unwrapOutput c) as [| |b|n|t|l|fs] eqn:Eu;
        try (destruct (@tagRules_other (unwrapOutput c) s) as [H|[e H]];
             [ rewrite Eu; congruence
             | rewrite Eu in H; rewrite H; reflexivity
             | rewrite Eu in H; rewrite H; reflexivity ]).
      reflexivity.
    + assert (is_str ty "final" || is_str ty "replace" = false) as ->.
      { destruct ty; try discriminate. cbn in *.
        apply String.eqb_eq in Eitem. now subst. }
      assert (is_str ty "end" = false) as ->.
      { destruct ty; try discriminate. cbn in *.
        apply String.eqb_eq in Eitem. now subst. }
      reflexivity.
  - unfold bind at 1, ret at 1. cbn [andb].
    destruct (is_str ty "final" || is_str ty "replace").
    + unfold bind, modify, lift.
      destruct data; try discriminate Ety; cbn;
        now rewrite stopSmoothStream_assistantMessage.
    + destruct (is_str ty "end"); [| reflexivity].
      unfold bind, gets, modify, ret. cbn.
      destruct (hasSeenTags s); cbn; [reflexivity |].
      now rewrite stopSmoothStream_assistantMessage.
Qed.

Lemma stopSmoothStream_clears (s : State) :
  streamInterval (stopSmoothStream s) = false /\
  streamBuffer (stopSmoothStream s) = [].
Proof.
  destruct s as [? ? ? buf iv ? ? ? ? ? ? ? ? ? ? ? ?].
  unfold stopSmoothStream. destruct iv, buf; now split.
Qed.

Lemma visibleText_replaceLast (m : Message) (s : State) :
  visibleText (replaceLast m s) = content m.
Proof.
  unfold visibleText, replaceLast, set_messages. cbn [messages].
  rewrite map_app. cbn [map]. now rewrite last_last.
Qed.

Lemma sameControl_refl (s : State) : sameControl s s.
Proof. unfold sameControl; tauto. Qed.

Lemma sameControl_trans (a b c : State) :
  sameControl a b -> sameControl b c -> sameControl a c.
Proof. unfold sameControl; intuition congruence. Qed.

Lemma stopSmoothStream_sameControl (s : State) :
  sameControl s (stopSmoothStream s).
Proof.
  destruct s as [? ? ? buf iv ? ? ? ? ? ? ? ? ? ? ? ?].
  unfold stopSmoothStream, sameControl. destruct iv, buf; cbn; tauto.
Qed.

(** A computation that leaves the control state alone, whether it returns
    or throws. *)
Definition SameM {A} (m : M A) : Prop := forall s, sameControl s (fst (m s)).

Lemma sameM_ret {A} (a : A) : SameM (ret a).
Proof. intros s. apply sameControl_refl. Qed.

Lemma sameM_lift {A} (r : result A) : SameM (lift r).
Proof. intros s. apply sameControl_refl. Qed.

Lemma sameM_modify (f : State -> State) :
  (forall s, sameControl s (f s)) -> SameM (modify f).
Proof. intros H s. apply H. Qed.

Lemma sameM_bind {A B} (m : M A) (k : A -> M B) :
  SameM m -> (forall a, SameM (k a)) -> SameM (bind m k).
Proof.
  intros Hm Hk s. unfold bind. specialize (Hm s).
  destruct (m s) as [s1 [a|e]]; cbn in *; [| assumption].
  eapply sameControl_trans; [eassumption | apply Hk].
Qed.

Lemma sameM_try {A} (m : M A) (h : exn -> M A) :
  SameM m -> (forall e, SameM (h e)) -> SameM (try_catch m h).
Proof.
  intros Hm Hh s. unfold try_catch. specialize (Hm s).
  destruct (m s) as [s1 [a|e]]; cbn in *; [assumption |].
  eapply sameControl_trans; [eassumption | apply Hh].
Qed.

Lemma sameM_push (chars : list string) : SameM (push chars).
Proof.
  intros s. rewrite push_unfold.
  destruct (Spread_fits (List.length chars)); cbn;
    [destruct s; unfold sameControl; cbn; tauto | apply sameControl_refl].
Qed.

Ltac same_setter :=
  let s := fresh "s" in
  intros s;
  first [ apply stopSmoothStream_sameControl
        | destruct s; unfold sameControl, replaceLast, setTimeout; cbn; tauto ].

Ltac same_prog :=
  repeat first
    [ apply sameM_ret | apply sameM_lift | apply sameM_push
    | apply sameM_modify; same_setter
    | apply sameM_bind; [| intros ]
    | match goal with
      | |- SameM (gets _) => intros ?; apply sameControl_refl
      | |- SameM (if ?b then _ else _) => destruct b
      | |- SameM (match ?x with _ => _ end) => destruct x
      end ].

Lemma sameM_tagRules (content : value) : SameM (tagRules content).
Proof. unfold tagRules. same_prog. Qed.

Lemma sameM_handleArrayItem (item : value) : SameM (handleArrayItem item).
Proof. unfold handleArrayItem. same_prog. Qed.

Lemma sameM_forItems (items : list value) : SameM (forItems items).
Proof.
  induction items as [|item rest IH]; cbn [forItems]; [same_prog |].
  apply sameM_bind; [apply sameM_handleArrayItem | intros _; assumption].
Qed.

Lemma sameM_onResidue : SameM onResidue.
Proof.
  unfold onResidue.
  apply sameM_bind; [same_prog | intros text].
  destruct (Text.nonempty text); [| same_prog].
  apply sameM_try; [| intros; same_prog].
  destruct (Text.startsWith text "[").
  - apply sameM_bind; [unfold parse; same_prog | intros jsonArray].
    apply sameM_bind; [same_prog | intros items].
    apply sameM_forItems.
  - apply sameM_bind; [unfold parse; same_prog | intros data].
    same_prog.
Qed.

Lemma handleEnvelope_sameControl (e : Envelope) (s : State) :
  sameControl s (fst (handleEnvelope e s)).
Proof.
  destruct e as [t|c| |]; cbn [handleEnvelope].
  - apply sameM_try; [apply sameM_tagRules | intros; apply sameM_ret].
  - pose proof (stopSmoothStream_sameControl s) as H.
    unfold sameControl in *. destruct (stopSmoothStream s); cbn in *. tauto.
  - destruct (hasSeenTags s); cbn; [apply sameControl_refl |].
    pose proof (stopSmoothStream_sameControl s) as H.
    unfold sameControl in *. destruct (stopSmoothStream s); cbn in *. tauto.
  - apply sameControl_refl.
Qed.

Lemma handleEnvelope_total (e : Envelope) (s : State) :
  exists s' c, handleEnvelope e s = (s', Ok c).
Proof.
  destruct e as [t|c| |]; cbn [handleEnvelope].
  - unfold try_catch, ret.
    destruct (tagRules (Str t) s) as [s' [c|x]]; eauto.
  - eauto.
  - destruct (hasSeenTags s); eauto.
  - unfold ret. eauto.
Qed.

Lemma forLines_total (lines : list string) (s : State) :
  exists s' c, forLines lines s = (s', Ok c) /\ sameControl s s'.
Proof.
  revert s. induction lines as [|line rest IH]; intros s.
  - exists s, Next. split; [reflexivity | apply sameControl_refl].
  - cbn [forLines]. unfold bind. rewrite handleLine_decode.
    pose proof (handleEnvelope_sameControl (decode line) s) as Hc.
    destruct (handleEnvelope_total (decode line) s) as [s1 [c H]].
    rewrite H in *. cbn in Hc. destruct c.
    + destruct (IH s1) as [s2 [c2 [H2 Hc2]]]. exists s2, c2.
      split; [assumption | eapply sameControl_trans; eassumption].
    + exists s1, Next. now split.
    + exists s1, Return. now split.
Qed.

End DecoderFacts.

(** ** The assembler *)

Section AssemblerFacts.
Context {rt : JSRuntime}.

Lemma nonempty_app_r (a b : string) :
  Text.nonempty b = true -> Text.nonempty (a ++ b) = true.
Proof. destruct a; [easy | reflexivity]. Qed.

Lemma combine_spec (v : value) (t : string) :
  combine v t = match Text.chars t with
                | [] => v
                | _ :: _ => plus_string v (Text.join (Text.chars t))
                end.
Proof. rewrite join_chars. destruct t; reflexivity. Qed.

(** A tick moves one character from the queue to the text and keeps the
    summary. *)
Lemma tick_tracks (s : State) (r : Reveal) :
  Tracks s r ->
  Tracks (if streamInterval s then tick s else s) r.
Proof.
  intros H. destruct (streamInterval s) eqn:Ei; [| exact H].
  destruct s as [ms il li buf iv cc it rc fc st am bf fch ja ts ph ck].
  unfold Tracks in *. cbn in *. subst iv.
  destruct H as (Hi & Hs & Hf & Hv & Ht & Hb & x & rest & Hc & Hq & Ha).
  subst cc buf. destruct rest as [|c rest]; cbn.
  - repeat split; try assumption. exists x, "". repeat split; assumption.
  - unfold tick. cbn.
    rewrite visibleText_replaceLast. cbn.
    repeat split; try assumption.
    exists (x ++ String c ""), rest. repeat split.
    rewrite append_assoc. exact Ha.
Qed.

Lemma combine_empty_base (t : string) : combine (Str "") t = Str t.
Proof. destruct t; reflexivity. Qed.

(** Stopping the ticker leaves the text the summary announces. *)
Lemma stop_tracks (s : State) (r : Reveal) :
  Tracks s r ->
  currentContent (stopSmoothStream s) = final r /\
  streamBuffer (stopSmoothStream s) = [] /\
  streamInterval (stopSmoothStream s) = false /\
  timeouts (stopSmoothStream s) = [] /\
  visibleText (stopSmoothStream s) = currentContent s /\
  (visibleText (stopSmoothStream s) = final r \/ truthy (final r) = true).
Proof.
  intros H.
  destruct s as [ms il li buf iv cc it rc fc st am bf fch ja ts ph ck].
  destruct r as [b a i sn en].
  unfold Tracks, final, visibleText in *. cbn in *.
  destruct H as (Hi & Hs & Hf & Hv & Ht & H).
  unfold stopSmoothStream. cbn. destruct iv; cbn.
  - destruct H as (Hb & x & rest & Hc & Hq & Ha).
    rewrite Hc in *. subst b buf a.
    rewrite combine_empty_base.
    destruct rest as [|c rest]; cbn.
    + rewrite append_nil_r. repeat split; try assumption. now left.
    + unfold plus_string. cbn.
      pose proof (join_chars (String c rest)) as J. cbn in J. rewrite J.
      repeat split; try assumption. right.
      apply nonempty_app_r. reflexivity.
  - destruct H as (Hc & Hq). rewrite Hc in *. subst buf.
    destruct a as [|c a]; cbn.
    + repeat split; try assumption. now left.
    + unfold plus_string. cbn.
      pose proof (join_chars (String c a)) as J. cbn in J. rewrite J.
      repeat split; try assumption. right.
      apply nonempty_app_r. reflexivity.
Qed.

Lemma feed_ended (es : list Envelope) (r : Reveal) :
  ended r = true -> fold_left feed es r = r.
Proof.
  intros H. induction es as [|e es IH]; [reflexivity |].
  cbn. unfold feed at 2. now rewrite H.
Qed.

(** Handling a record that is not a terminator follows the summary. *)
Lemma handleEnvelope_tracks (e : Envelope) (s : State) (r : Reveal) :
  Tracks s r -> ended r = false -> terminator e = false ->
  exists s' c,
    handleEnvelope e s = (s', Ok c) /\
    ((ended (feed r e) = false /\ c = Next /\ Tracks s' (feed r e)) \/
     (ended (feed r e) = true /\ c = Return /\ Closing s' (feed r e))).
Proof.
  unfold Closing. intros HT He Hterm. destruct e as [t|v| |].
  - (* an item *)
    destruct s as [ms il li buf iv cc it rc fc st am bf fch ja ts ph ck].
    destruct r as [b a i sn en].
    unfold Tracks, final, visibleText in *. cbn in *. subst en.
    destruct HT as (Hi & Hs & Hf & Hv & Ht & H). subst it st fc ts.
    unfold feed. cbn.
    unfold try_catch, tagRules, push, bind, lift, ret, modify, gets. cbn.
    rewrite length_chars.
    destruct (String.eqb t "<response>") eqn:E1.
    { eexists _, _. split; [reflexivity |]. left. cbn.
      repeat split; assumption. }
    destruct (String.eqb t "</response>") eqn:E2.
    { eexists _, _. split; [reflexivity |]. left. cbn.
      repeat split; assumption. }
    cbn in Hterm.
    assert (Text.includes t "<end>" && Text.includes t "</end>" = false) as Hinc.
    { destruct (Text.includes t "<end>"); [exact Hterm | reflexivity]. }
    assert (Hpush :
      if iv
      then b = Str "" /\
           exists x rest, cc = Str x /\ (buf ++ Text.chars t)%list = Text.chars rest
                          /\ x ++ rest = a ++ t
      else cc = b /\ (buf ++ Text.chars t)%list = Text.chars (a ++ t)).
    { destruct iv.
      - destruct H as (Hb & x & rest & Hc & Hq & Ha).
        split; [assumption |]. exists x, (rest ++ t). repeat split.
        + assumption.
        + now rewrite chars_app, Hq.
        + now rewrite <- append_assoc, Ha.
      - destruct H as (Hc & Hq). split; [assumption |].
        now rewrite chars_app, Hq. }
    unfold enqueue.
    destruct (Text.includes t "<end>"); cbn in *.
    + rewrite Hinc. cbn.
      destruct i; cbn.
      * destruct (Spread_fits (String.length t)); cbn;
          (eexists _, _; split; [reflexivity |]; left; cbn;
           repeat split; assumption).
      * destruct sn; cbn.
        -- destruct (Text.includes t "<"); cbn;
             (eexists _, _; split; [reflexivity |]; left; cbn;
              repeat split; assumption).
        -- destruct (Spread_fits (String.length t)); cbn;
             (eexists _, _; split; [reflexivity |]; left; cbn;
              repeat split; assumption).
    + destruct i; cbn.
      * destruct (Spread_fits (String.length t)); cbn;
          (eexists _, _; split; [reflexivity |]; left; cbn;
           repeat split; assumption).
      * destruct sn; cbn.
        -- destruct (Text.includes t "<"); cbn;
             (eexists _, _; split; [reflexivity |]; left; cbn;
              repeat split; assumption).
        -- destruct (Spread_fits (String.length t)); cbn;
             (eexists _, _; split; [reflexivity |]; left; cbn;
              repeat split; assumption).
  - (* final or replace *)
    cbn [handleEnvelope]. eexists _, _. split; [reflexivity |]. left.
    destruct (stop_tracks HT) as (Hc & Hq & Hi & Ht & _).
    unfold feed. rewrite He. cbn [ended]. split; [reflexivity |].
    split; [reflexivity |].
    unfold Tracks. rewrite visibleText_replaceLast.
    destruct HT as (Ti & Ts & Tf & _).
    pose proof (stopSmoothStream_sameControl s) as (_ & _ & _ & _ & _ & Hfc & _).
    destruct (stopSmoothStream s)
      as [ms il li buf iv cc it rc fc st am bf fch ja ts ph ck] eqn:Es.
    assert (isInResponseTag (stopSmoothStream s) = isInResponseTag s
            /\ hasSeenTags (stopSmoothStream s) = hasSeenTags s) as [Fi Fs].
    { clear. destruct s as [? ? ? buf iv ? ? ? ? ? ? ? ? ? ? ? ?].
      unfold stopSmoothStream. destruct iv, buf; cbn; now split. }
    rewrite Es in Fi, Fs. cbn in *. subst.
    repeat split; congruence.
  - (* end *)
    cbn [handleEnvelope]. unfold feed. rewrite He.
    destruct HT as (Ti & Ts & Tf & Tv & Tt & Tb).
    assert (Tracks s r) as HT by (unfold Tracks; tauto).
    rewrite <- Ts. destruct (hasSeenTags s) eqn:Eseen.
    + eexists _, _. split; [reflexivity |]. left.
      split; [assumption | split; [reflexivity | exact HT]].
    + eexists _, _. split; [reflexivity |]. right.
      destruct (stop_tracks HT) as (Hc & Hq & Hi & Ht & Hv & Hor).
      pose proof (stopSmoothStream_assistantMessage s) as Ham.
      destruct (stopSmoothStream s)
        as [ms il li buf iv cc it rc fc st am bf fch ja ts ph ck] eqn:Es.
      unfold final, visibleText in *. cbn in *. subst.
      repeat split; assumption.
  - (* ignored *)
    cbn [handleEnvelope]. unfold ret. eexists _, _. split; [reflexivity |].
    left. unfold feed. rewrite He.
    split; [assumption | split; [reflexivity | exact HT]].
Qed.

(** The loop over the complete lines of a chunk follows the summary, and
    stops at the record that closes the reply. *)
Lemma forLines_tracks (lines : list string) :
  forall (s : State) (r : Reveal),
  Tracks s r -> ended r = false ->
  forallb (fun e => negb (terminator e)) (map decode lines) = true ->
  exists s' c,
    forLines lines s = (s', Ok c) /\ sameControl s s' /\
    let r' := fold_left feed (map decode lines) r in
    (ended r' = false /\ c = Next /\ Tracks s' r') \/
    (ended r' = true /\ c = Return /\ Closing s' r').
Proof.
  induction lines as [|line rest IH]; intros s r HT He Hp.
  - exists s, Next. split; [reflexivity |]. split; [apply sameControl_refl |].
    left. cbn. split; [assumption | split; [reflexivity | assumption]].
  - cbn [map forallb] in Hp. apply andb_true_iff in Hp. destruct Hp as [Hl Hp].
    apply negb_true_iff in Hl.
    destruct (handleEnvelope_tracks (decode line) HT He Hl) as [s1 [c [H1 Hcase]]].
    pose proof (handleEnvelope_sameControl (decode line) s) as Hc1.
    rewrite H1 in Hc1. cbn [fst] in Hc1.
    cbn [forLines map fold_left]. unfold bind. rewrite handleLine_decode, H1.
    destruct Hcase as [(He1 & -> & HT1) | (He1 & -> & HC1)].
    + destruct (IH s1 _ HT1 He1 Hp) as [s2 [c2 [H2 [Hc2 Hcase2]]]].
      exists s2, c2. split; [assumption |].
      split; [eapply sameControl_trans; eassumption | exact Hcase2].
    + exists s1, Return. split; [reflexivity |]. split; [assumption |].
      right. cbn zeta. rewrite feed_ended by assumption.
      split; [assumption | split; [reflexivity | exact HC1]].
Qed.

(** ** Runs *)

Lemma completeLines_app (t u : string) :
  completeLines (t ++ u)
  = (completeLines t ++ completeLines (residue t ++ u))%list.
Proof.
  unfold completeLines, residue. rewrite split_newline_app.
  apply removelast_app, split_newline_nonempty.
Qed.

Lemma residue_app (t u : string) : residue (t ++ u) = residue (residue t ++ u).
Proof.
  unfold residue. rewrite split_newline_app.
  pose proof (split_newline_nonempty (last (Text.split_newline t) "" ++ u)) as H.
  destruct (Text.split_newline (last (Text.split_newline t) "" ++ u))
    as [|h l] eqn:E; [congruence |].
  rewrite (app_removelast_last "" (l:=h :: l)) at 1 by discriminate.
  rewrite List.app_assoc. now rewrite last_last.
Qed.

Lemma envelopes_app (t u : string) :
  envelopes (t ++ u)
  = (envelopes t ++ map decode (completeLines (residue t ++ u)))%list.
Proof. unfold envelopes. now rewrite completeLines_app, map_app. Qed.

Lemma summary_app (t u : string) :
  summary (t ++ u)
  = fold_left feed (map decode (completeLines (residue t ++ u))) (summary t).
Proof. unfold summary. now rewrite envelopes_app, fold_left_app. Qed.

(** What [onChunk] does before the loop touches only the reader's locals. *)
Lemma onChunk_unfold (t : string) (s : State) :
  exists s0,
    onChunk t s = forLines (completeLines (buffer s ++ t)) s0 /\
    buffer s0 = residue (buffer s ++ t) /\
    phase s0 = phase s /\ isLoading s0 = isLoading s /\
    loadingInterval s0 = loadingInterval s /\
    (forall r, Tracks s r -> Tracks s0 r).
Proof.
  destruct s as [ms il li buf iv cc it rc fc st am bf fch ja ts ph ck].
  unfold onChunk, bind, gets, modify, ret. cbn.
  destruct (negb (Text.nonempty fch) && Text.startsWith (Text.trim t) "[");
    cbn; eexists; (split; [reflexivity |]); cbn;
    (split; [reflexivity |]); repeat (split; [reflexivity |]);
    intros r H; exact H.
Qed.

Lemma closed_step (s : State) (r : Reveal) (e : Event) :
  Closed s r -> Closed (step s e) r.
Proof.
  destruct s as [ms il li buf iv cc it rc fc st am bf fch ja ts ph ck].
  unfold Closed. cbn. intros (-> & -> & H).
  destruct e; cbn; try (repeat split; assumption).
  destruct H as [(-> & -> & Hv) | (-> & Hv)]; cbn.
  - destruct (truthy (final r)) eqn:Et; cbn.
    + destruct li; cbn; (split; [reflexivity |]; split; [reflexivity |]);
        right; (split; [reflexivity |]); apply visibleText_replaceLast.
    + destruct Hv as [Hv | Hv]; [| discriminate].
      destruct li; cbn; (split; [reflexivity |]; split; [reflexivity |]);
        right; (split; [reflexivity | exact Hv]).
  - split; [reflexivity |]. split; [reflexivity |]. right. now split.
Qed.

Lemma settled_step (s : State) (r : Reveal) (e : Event) :
  Settled s r -> Settled (step s e) r.
Proof.
  destruct s as [ms il li buf iv cc it rc fc st am bf fch ja ts ph ck].
  unfold Settled. cbn. intros (-> & -> & -> & H).
  destruct e; cbn; repeat split; assumption.
Qed.

Lemma tick_frame (s : State) :
  phase (if streamInterval s then tick s else s) = phase s /\
  buffer (if streamInterval s then tick s else s) = buffer s.
Proof.
  destruct s as [ms il li buf iv cc it rc fc st am bf fch ja ts ph ck].
  cbn. destruct iv; [| now split]. unfold tick. cbn.
  destruct buf; now split.
Qed.

Lemma finally_closing (s : State) (r : Reveal) :
  Closing s r -> Closed (finally s) r.
Proof.
  destruct s as [ms il li buf iv cc it rc fc st am bf fch ja ts ph ck].
  unfold Closing, Closed, finally, stopLoadingTimer, visibleText. cbn.
  intros (-> & -> & -> & H). destruct li; cbn; repeat split; left; now repeat split.
Qed.

(** One test of the waiting loop: the reply is settled when the queue is
    empty, and the loop goes on waiting otherwise. *)
Lemma drain_tracks (s : State) (r : Reveal) :
  Tracks s r ->
  (phase (drain s) = Draining /\ Tracks (drain s) r) \/ Settled (drain s) r.
Proof.
  destruct s as [ms il li buf iv cc it rc fc st am bf fch ja ts ph ck].
  destruct r as [b a i sn en].
  unfold Tracks, Settled, drain, final, visibleText. cbn.
  intros (Hi & Hs & Hf & Hv & Ht & H).
  destruct buf as [|c buf]; cbn.
  - right. unfold finally, complete, stopLoadingTimer, stopSmoothStream. cbn.
    assert (cc = combine b a) as Hfin.
    { destruct iv.
      - destruct H as (-> & x & rest & -> & Hq & Ha).
        symmetry in Hq. apply chars_nil in Hq. subst rest.
        rewrite append_nil_r in Ha. subst a. now rewrite combine_empty_base.
      - destruct H as (-> & Hq). symmetry in Hq. apply chars_nil in Hq.
        now subst a. }
    destruct iv, li; cbn; repeat split; congruence.
  - left. repeat split; assumption.
Qed.

Lemma ending_step (s : State) (r : Reveal) (e : Event) :
  Ending s r -> Ending (step s e) r.
Proof.
  unfold Ending. destruct (ended r); [apply closed_step |].
  intros [[Hp HT] | H]; [| right; now apply settled_step].
  destruct e; unfold step; try rewrite Hp; try (left; now split).
  - (* the ticker *)
    left. destruct (tick_frame s) as [Hph _]. split; [congruence |].
    now apply tick_tracks.
  - (* a callback *)
    destruct HT as (Hi & Hs & Hf & Hv & Ht & Hb). rewrite Ht.
    left. split; [assumption |]. unfold Tracks. tauto.
  - (* the waiting loop *)
    now apply drain_tracks.
Qed.

Lemma streaming_chunk (s : State) (t u : string) :
  Streaming s t ->
  forallb (fun e => negb (terminator e))
    (map decode (completeLines (residue t ++ u))) = true ->
  Streaming (step s (Chunk u)) (t ++ u).
Proof.
  unfold Streaming. rewrite summary_app.
  destruct (ended (summary t)) eqn:He.
  - intros H _. rewrite feed_ended by assumption. rewrite He.
    now apply closed_step.
  - intros (Hp & Hb & HT) Hplain.
    unfold step. rewrite Hp.
    destruct (onChunk_unfold u s) as (s0 & -> & Hb0 & Hp0 & _ & _ & HT0).
    rewrite Hb in *.
    destruct (forLines_tracks _ (HT0 _ HT) He Hplain)
      as (s' & c & -> & Hc & Hcase).
    destruct Hc as (Hph & _ & _ & _ & Hbuf & _).
    destruct Hcase as [(He' & -> & HT') | (He' & -> & HC)]; rewrite He'.
    + split; [congruence |]. split; [| assumption].
      rewrite residue_app. congruence.
    + now apply finally_closing.
Qed.

Lemma streaming_done (s : State) (t : string) :
  Streaming s t ->
  Text.nonempty (Text.trim (residue t)) = false ->
  Ending (step s Done) (summary t).
Proof.
  unfold Streaming, Ending. destruct (ended (summary t)).
  - intros H _. now apply closed_step.
  - intros (Hp & Hb & HT) Hblank.
    unfold step. rewrite Hp.
    unfold onResidue, bind, gets. rewrite Hb, Hblank. unfold ret.
    unfold afterStream.
    destruct HT as (Hi & Hs & Hf & Hv & Ht & Hq).
    rewrite Hf. cbn [truthy Text.nonempty negb].
    apply drain_tracks. unfold Tracks. tauto.
Qed.

Lemma streaming_step (s : State) (t : string) (e : Event) :
  Streaming s t ->
  match e with Chunk _ | Done | Rejected => False | _ => True end ->
  Streaming (step s e) t.
Proof.
  unfold Streaming. destruct (ended (summary t)).
  - intros H _. now apply closed_step.
  - intros (Hp & Hb & HT) He.
    destruct e; try contradiction; unfold step; try rewrite Hp;
      try (split; [assumption | split; [assumption | exact HT]]).
    + (* the ticker *)
      destruct (tick_frame s) as [Hph Hbf].
      split; [congruence |]. split; [congruence |]. now apply tick_tracks.
    + (* a callback *)
      destruct HT as (Hi & Hs & Hf & Hv & Ht & Hq). rewrite Ht.
      split; [assumption |]. split; [assumption |]. unfold Tracks. tauto.
Qed.

Lemma run_ending (es : list Event) :
  forall (s : State) (r : Reveal), Ending s r -> Ending (run s es) r.
Proof.
  induction es as [|e es IH]; intros s r H; [exact H |].
  cbn. apply IH. now apply ending_step.
Qed.

Lemma noTerminator_app (t u v : string) :
  noTerminator ((t ++ u) ++ v) = true ->
  forallb (fun e => negb (terminator e))
    (map decode (completeLines (residue t ++ u))) = true.
Proof.
  unfold noTerminator. intros H.
  rewrite envelopes_app, forallb_app in H.
  apply andb_true_iff in H. destruct H as [H _].
  rewrite envelopes_app, forallb_app in H.
  apply andb_true_iff in H. now destruct H as [_ H].
Qed.

(** Once the stream has ended, it is not read again. *)
Lemma past_reading_step (s : State) (e : Event) :
  phase s = Draining \/ phase s = Returned ->
  phase (step s e) = Draining \/ phase (step s e) = Returned.
Proof.
  destruct s as [ms il li buf iv cc it rc fc st am bf fch ja ts ph ck].
  cbn. intros [-> | ->]; destruct e; cbn; auto.
  - destruct iv; cbn; [| auto]. unfold tick. cbn. destruct buf; cbn; auto.
  - destruct ts as [|cb ts]; cbn; [auto |].
    destruct cb; cbn; unfold stopLoadingTimer; cbn.
    + destruct li; cbn; auto.
    + destruct (truthy cc), li; cbn; auto.
  - unfold drain. cbn. destruct buf; cbn; [| auto].
    unfold finally, stopLoadingTimer. cbn.
    destruct iv, li; cbn; auto.
  - destruct iv; cbn; [| auto]. unfold tick. cbn. destruct buf; cbn; auto.
  - destruct ts as [|cb ts]; cbn; [auto |].
    destruct cb; cbn; unfold stopLoadingTimer; cbn.
    + destruct li; cbn; auto.
    + destruct (truthy cc), li; cbn; auto.
Qed.

Lemma past_reading_run (es : list Event) :
  forall s : State,
  phase s = Draining \/ phase s = Returned ->
  phase (run s es) = Draining \/ phase (run s es) = Returned.
Proof.
  induction es as [|e es IH]; intros s H; [exact H |].
  cbn. apply IH. now apply past_reading_step.
Qed.

Lemma done_past_reading (s : State) :
  phase s = Reading ->
  phase (step s Done) = Draining \/ phase (step s Done) = Returned.
Proof.
  intros Hp. unfold step. rewrite Hp.
  assert (forall x, phase (finally x) = Returned) as Hf
    by (intros x; destruct x as [? ? li ? ? ? ? ? ? ? ? ? ? ? ? ? ?];
        unfold finally, stopLoadingTimer; cbn; destruct li; reflexivity).
  assert (forall x, phase (drain x) = Draining \/ phase (drain x) = Returned)
    as Hd.
  { intros x. unfold drain. destruct (streamBuffer x); [right; apply Hf |].
    left. now destruct x. }
  destruct (onResidue s) as [s' [[]|x]]; [| right; apply Hf].
  unfold afterStream. destruct (negb (truthy (finalContent s')));
    [apply Hd | right; apply Hf].
Qed.


(** Reading a stream of records none of which is a terminator keeps the
    state in step with the summary of the text delivered. *)
Lemma run_streaming (es : list Event) :
  forall (s : State) (t : string),
  Streaming s t -> noFailure es = true ->
  wellFormed (t ++ streamOf es) = true ->
  Streaming (run s es) (t ++ streamOf es)
  \/ Ending (run s es) (summary (t ++ streamOf es)).
Proof.
  induction es as [|e es IH]; intros s t HS Hnf Hwf.
  - left. cbn. now rewrite append_nil_r.
  - cbn [noFailure forallb] in Hnf. apply andb_true_iff in Hnf.
    destruct Hnf as [He Hnf]. fold (noFailure es) in Hnf.
    destruct e as [ok body| |u| | | | |now];
      try discriminate He;
      try (cbn [streamOf run fold_left]; apply IH;
           [apply streaming_step; [assumption | exact I]
           | assumption | assumption]).
    + (* a chunk *)
      cbn [streamOf run fold_left] in *. rewrite <- append_assoc.
      rewrite <- append_assoc in Hwf. apply IH; [| assumption | assumption].
      apply streaming_chunk; [assumption |].
      unfold wellFormed in Hwf. apply andb_true_iff in Hwf.
      destruct Hwf as [Hwf _]. now apply noTerminator_app in Hwf.
    + (* the end of the stream *)
      right. cbn [streamOf run fold_left] in *. rewrite append_nil_r in *.
      apply run_ending. apply streaming_done; [assumption |].
      unfold wellFormed in Hwf. apply andb_true_iff in Hwf.
      destruct Hwf as [_ Hwf]. now apply negb_true_iff in Hwf.
Qed.

(** When the reply is over, it shows what the summary announces. *)
Lemma finished_visible (s : State) (t : string) :
  Streaming s t \/ Ending s (summary t) ->
  finished s -> visibleText s = render t.
Proof.
  unfold Streaming, Ending, finished, render.
  intros H [Hp Ht]. destruct (ended (summary t)).
  - assert (Closed s (summary t)) as (Hp' & _ & HC) by tauto.
    destruct HC as [(Ht' & _) | (_ & Hv)]; [congruence | assumption].
  - destruct H as [(Hp' & _) | [(Hp' & _) | (_ & _ & _ & Hv)]];
      [congruence | congruence | assumption].
Qed.

Lemma connected_streaming (prev : list Message) (userMessage now : string) :
  Streaming (connected prev userMessage now) "".
Proof.
  unfold Streaming, connected. cbn.
  split; [reflexivity |]. split; [reflexivity |].
  unfold Tracks, visibleText. cbn.
  repeat split.
  - rewrite map_app. cbn [map].
    change [Some (mkMessage user (Str userMessage) now);
            Some (mkMessage assistant (Str "") now)]
      with ([Some (mkMessage user (Str userMessage) now)]
            ++ [Some (mkMessage assistant (Str "") now)])%list.
    rewrite List.app_assoc. now rewrite last_last.
  - exists "", "". now repeat split.
Qed.




(** A stream of items each of which fits one call of [push] shows the
    concatenation of the contents the tag rules accept. *)
Lemma final_items (es : list Envelope) :
  forall r : Reveal,
  ended r = false -> base r = Str "" -> itemsOnly es = true ->
  fitting es = true ->
  final (fold_left feed es r)
  = Str (appended r ++ shown (inTagged r) (seenTag r) es).
Proof.
  induction es as [|e es IH]; intros r He Hb Hi Hfit.
  - cbn. unfold final. rewrite Hb, combine_empty_base. now rewrite append_nil_r.
  - cbn [itemsOnly forallb] in Hi. apply andb_true_iff in Hi.
    destruct Hi as [Hi1 Hi]. fold (itemsOnly es) in Hi.
    cbn [fitting forallb] in Hfit. apply andb_true_iff in Hfit.
    destruct Hfit as [Hf1 Hfit]. fold (fitting es) in Hfit.
    cbn [fold_left]. destruct e as [t|v| |]; try discriminate Hi1.
    + unfold feed at 2. rewrite He, Hf1. cbn [shown].
      destruct (String.eqb t "<response>").
      { rewrite IH by (assumption || reflexivity). reflexivity. }
      destruct (String.eqb t "</response>").
      { rewrite IH by (assumption || reflexivity). reflexivity. }
      destruct (inTagged r || negb (seenTag r)).
      * rewrite IH by (assumption || reflexivity). cbn.
        now rewrite append_assoc.
      * now apply IH.
    + unfold feed at 2. rewrite He. cbn [shown]. now apply IH.
Qed.

Lemma decode_typed (line : string) (data ty : value) :
  Text.nonempty (Text.trim line) = true ->
  JSON_parse (Text.trim line) = Some data ->
  getProp "type" data = Ok ty ->
  decode line
  = if is_str ty "item" then
      match getProp "content" data with
      | Ok c => if truthy c
                then match unwrapOutput c with
                     | Str t => Item t
                     | _ => Ignored
                     end
                else Ignored
      | Throw _ => Ignored
      end
    else if is_str ty "final" || is_str ty "replace" then
      match getProp "content" data with
      | Ok c => Replace c
      | Throw _ => Ignored
      end
    else if is_str ty "end" then End
    else Ignored.
Proof. intros Hn Hp Ht. unfold decode. now rewrite Hn, Hp, Ht. Qed.

End AssemblerFacts.

(** ** Stopping the reveal *)

(** C8: stopping the reveal timer flushes the whole pending-character queue
    into the accumulated content, in order and in one step: afterwards the
    timer is cleared, the queue is empty, and the content is the previous
    content followed by every character that was queued. *)
Theorem stopSmoothStream_flushes (rt : JSRuntime) (s : State) :
  streamInterval (stopSmoothStream s) = false /\
  streamBuffer (stopSmoothStream s) = [] /\
  ToString (currentContent (stopSmoothStream s))
  = ToString (currentContent s) ++ Text.join (streamBuffer s) /\
  (forall c, currentContent s = Str c ->
             currentContent (stopSmoothStream s)
             = Str (c ++ Text.join (streamBuffer s))).
Proof.
  destruct s as [ms il li buf iv cc it rc fc st am bf fch ja ts ph ck].
  unfold stopSmoothStream. cbn.
  destruct iv, buf as [|c0 buf]; cbn;
    (split; [reflexivity |]); (split; [reflexivity |]);
    (split; [try (now rewrite append_nil_r); reflexivity |]);
    intros c ->; try (now rewrite append_nil_r); reflexivity.
Qed.

(** ** Records the assembler ignores or obeys *)

(** C10: an item record whose content is the empty string or is absent is
    ignored entirely, in every state: handling its line leaves the state
    (tag flags, queue, content, transcript) as it was, and so does handling
    it as an element of a batch array. *)
Theorem empty_item_ignored (rt : JSRuntime) (line : string) (data : value)
    (s : State) :
  JSON_parse (Text.trim line) = Some data ->
  getProp "type" data = Ok (Str "item") ->
  getProp "content" data = Ok (Str "") \/ getProp "content" data = Ok Undefined ->
  handleLine line s = (s, Ok Next) /\
  (forall item, unwrapJson item = Ok data -> handleArrayItem item s = (s, Ok tt)).
Proof.
  intros Hp Ht Hc. split.
  - rewrite handleLine_decode.
    destruct (Text.nonempty (Text.trim line)) eqn:Hn.
    + rewrite (decode_typed line Hn Hp Ht).
      destruct Hc as [-> | ->]; reflexivity.
    + unfold decode. now rewrite Hn.
  - intros item Hu. unfold handleArrayItem, bind, lift, ret.
    rewrite Hu, Ht.
    destruct Hc as [-> | ->]; reflexivity.
Qed.

Lemma empty_item_ignored_witness :
  @handleLine Json.runtime (Wire.signal "item") Wire.reading
  = (Wire.reading, Ok Next).
Proof.
  apply (@empty_item_ignored Json.runtime (Wire.signal "item")
           (Obj [("type", Str "item")]) Wire.reading).
  - reflexivity.
  - reflexivity.
  - right. reflexivity.
Defined.

Section ReplaceFacts.
Context {rt : JSRuntime}.

(** The state a final or replace record with content [c] leaves. *)
Lemma replaced_forced (c : value) (s : State) :
  let s' := replaceLast (withContent (assistantMessage s) c)
              (set_currentContent c (stopSmoothStream s)) in
  streamInterval s' = false /\ streamBuffer s' = [] /\
  currentContent s' = c /\ visibleText s' = c /\ step s' Tick = s'.
Proof.
  cbn zeta. rewrite visibleText_replaceLast.
  destruct (stopSmoothStream_clears s) as (Hi & Hb).
  destruct (stopSmoothStream s)
    as [ms il li buf iv cc it rc fc st am bf fch ja ts ph ck].
  cbn in *. subst. repeat split.
Qed.

(** As a line, in whatever state it arrives, such a record stops the
    gradual reveal at once and makes its content the visible text. *)
Lemma replace_line_forces_content (line : string) (data c : value)
    (ty : string) (s : State) :
  Text.nonempty (Text.trim line) = true ->
  JSON_parse (Text.trim line) = Some data ->
  getProp "type" data = Ok (Str ty) ->
  ty = "final" \/ ty = "replace" ->
  getProp "content" data = Ok c ->
  handleLine line s
  = (replaceLast (withContent (assistantMessage s) c)
       (set_currentContent c (stopSmoothStream s)), Ok Next).
Proof.
  intros Hn Hp Ht Hty Hc.
  rewrite handleLine_decode, (decode_typed line Hn Hp Ht), Hc.
  assert (is_str (Str ty) "item" = false) as ->
    by (destruct Hty as [-> | ->]; reflexivity).
  assert (is_str (Str ty) "final" || is_str (Str ty) "replace" = true) as ->
    by (destruct Hty as [-> | ->]; reflexivity).
  reflexivity.
Qed.

(** So it does as an element of a batch array. *)
Lemma replace_element_forces_content (item data c : value) (ty : string)
    (s : State) :
  unwrapJson item = Ok data ->
  getProp "type" data = Ok (Str ty) ->
  ty = "final" \/ ty = "replace" ->
  getProp "content" data = Ok c ->
  handleArrayItem item s
  = (replaceLast (withContent (assistantMessage s) c)
       (set_currentContent c (stopSmoothStream s)), Ok tt).
Proof.
  intros Hu Ht Hty Hc.
  unfold handleArrayItem, bind, lift, ret, modify.
  rewrite Hu, Ht.
  assert (is_str (Str ty) "item" = false) as ->
    by (destruct Hty as [-> | ->]; reflexivity).
  assert (is_str (Str ty) "replace" || is_str (Str ty) "final" = true) as ->
    by (destruct Hty as [-> | ->]; reflexivity).
  cbn [andb]. rewrite Hc.
  pose proof (stopSmoothStream_assistantMessage s) as Ha.
  destruct (stopSmoothStream s). cbn in *. now subst.
Qed.

(** As what is left in [buffer] when the stream ends, a record that is not
    an item changes nothing. *)
Lemma residual_other_ignored (s : State) (data ty : value) :
  Text.nonempty (Text.trim (buffer s)) = true ->
  Text.startsWith (Text.trim (buffer s)) "[" = false ->
  JSON_parse (Text.trim (buffer s)) = Some data ->
  getProp "type" data = Ok ty -> is_str ty "item" = false ->
  onResidue s = (s, Ok tt).
Proof.
  intros Hn Hs Hp Ht Hi.
  unfold onResidue, bind, gets, try_catch, parse, lift, ret.
  rewrite Hn, Hs, Hp, Ht, Hi. reflexivity.
Qed.

End ReplaceFacts.

(** C6 (the code departs from it): a final or replace record is obeyed
    where it arrives as a complete line, in whatever state, and where it is
    an element of a batch array: the reveal is stopped, the queue is empty,
    and the content and the visible text are the record's content.  It is
    not obeyed where it is the last record of the stream with no newline
    after it: the rule for what is left in [buffer] (lines 427-433) only
    looks for an item, and the record changes nothing.  An item Hello
    followed by such a record ends showing Hello; followed by the same
    record as a line or as a batch array, it ends showing the record's
    content. *)
Theorem unterminated_replace_is_ignored :
  (forall (rt : JSRuntime) (s : State) (data : value) (ty : string),
     Text.nonempty (Text.trim (buffer s)) = true ->
     Text.startsWith (Text.trim (buffer s)) "[" = false ->
     JSON_parse (Text.trim (buffer s)) = Some data ->
     getProp "type" data = Ok (Str ty) -> ty = "final" \/ ty = "replace" ->
     onResidue s = (s, Ok tt)) /\
  (forall (rt : JSRuntime) (line : string) (data c : value) (ty : string)
          (s : State),
     Text.nonempty (Text.trim line) = true ->
     JSON_parse (Text.trim line) = Some data ->
     getProp "type" data = Ok (Str ty) -> ty = "final" \/ ty = "replace" ->
     getProp "content" data = Ok c ->
     exists s',
       handleLine line s = (s', Ok Next) /\
       streamInterval s' = false /\ streamBuffer s' = [] /\
       currentContent s' = c /\ visibleText s' = c /\ step s' Tick = s') /\
  (forall (rt : JSRuntime) (item data c : value) (ty : string) (s : State),
     unwrapJson item = Ok data ->
     getProp "type" data = Ok (Str ty) -> ty = "final" \/ ty = "replace" ->
     getProp "content" data = Ok c ->
     exists s',
       handleArrayItem item s = (s', Ok tt) /\
       streamInterval s' = false /\ streamBuffer s' = [] /\
       currentContent s' = c /\ visibleText s' = c /\ step s' Tick = s') /\
  visibleText (Wire.go Wire.unterminated) = Str "Hello" /\
  finished (Wire.go Wire.unterminated) /\
  visibleText (Wire.go Wire.asLine) = Str "Corrected text" /\
  visibleText (Wire.go Wire.asBatch) = Str "Corrected text".
Proof.
  split.
  { intros rt s data ty Hn Hs Hp Ht Hty.
    apply (residual_other_ignored s Hn Hs Hp Ht).
    destruct Hty as [-> | ->]; reflexivity. }
  split.
  { intros rt line data c ty s Hn Hp Ht Hty Hc. eexists. split.
    - apply (replace_line_forces_content line s Hn Hp Ht Hty Hc).
    - apply replaced_forced. }
  split.
  { intros rt item data c ty s Hu Ht Hty Hc. eexists. split.
    - apply (replace_element_forces_content item s Hu Ht Hty Hc).
    - apply replaced_forced. }
  split; [vm_compute; reflexivity |].
  split; [split; vm_compute; reflexivity |].
  split; vm_compute; reflexivity.
Qed.

(** ** The batch array *)

Section BatchFacts.
Context {rt : JSRuntime}.

Lemma handleArrayItem_item (item data : value) (c : string) (s : State) :
  unwrapJson item = Ok data ->
  getProp "type" data = Ok (Str "item") ->
  getProp "content" data = Ok (Str c) -> c <> "" ->
  handleArrayItem item s = push (Text.chars c) s.
Proof.
  intros Hu Ht Hc Hne. unfold handleArrayItem, bind, lift, ret.
  rewrite Hu, Ht. cbn [is_str]. rewrite Hc.
  destruct c as [|a c]; [congruence | reflexivity].
Qed.

(** An item too long for one call of [push] throws and leaves the state
    as it was. *)
Lemma handleArrayItem_too_long (item data : value) (c : string) (s : State) :
  unwrapJson item = Ok data ->
  getProp "type" data = Ok (Str "item") ->
  getProp "content" data = Ok (Str c) -> c <> "" ->
  Spread_fits (String.length c) = false ->
  handleArrayItem item s = (s, Throw RangeError).
Proof.
  intros Hu Ht Hc Hne Hfit.
  rewrite (handleArrayItem_item item s Hu Ht Hc Hne), push_unfold, length_chars.
  now rewrite Hfit.
Qed.

End BatchFacts.

Lemma filler_length (n : positive) :
  N.of_nat (String.length (Wire.filler n)) = N.pos n.
Proof.
  unfold Wire.filler. induction n as [|n IH] using Pos.peano_ind.
  - reflexivity.
  - rewrite Pos.iter_succ. cbn [String.length].
    rewrite Nat2N.inj_succ, IH. reflexivity.
Qed.

(** C9 (as stated, it fails): the content of an item of a batch array is
    not always appended.  A content of 524288 characters is more than one
    call of [push] takes as arguments; the call throws, nothing is queued,
    and a reply made of a batch array with that one item ends showing
    nothing. *)
Lemma long_batch_item_is_not_queued :
  N.of_nat (String.length (Wire.filler 524288)) = 524288%N /\
  @handleArrayItem Json.runtime
    (Obj [("type", Str "item"); ("content", Str (Wire.filler 524288))])
    Wire.reading
  = (Wire.reading, Throw RangeError) /\
  streamBuffer
    (fst (@handleArrayItem Json.runtime
            (Obj [("type", Str "item"); ("content", Str (Wire.filler 524288))])
            Wire.reading))
  <> (streamBuffer Wire.reading ++ Text.chars (Wire.filler 524288))%list /\
  visibleText (Wire.go Wire.longBatch) = Str "" /\
  finished (Wire.go Wire.longBatch).
Proof.
  assert (visibleText (Wire.go Wire.longBatch) = Str "") as Hv
    by (vm_compute; reflexivity).
  assert (phase (Wire.go Wire.longBatch) = Returned) as Hp
    by (vm_compute; reflexivity).
  assert (timeouts (Wire.go Wire.longBatch) = []) as Hts
    by (vm_compute; reflexivity).
  assert (@handleArrayItem Json.runtime
            (Obj [("type", Str "item"); ("content", Str (Wire.filler 524288))])
            Wire.reading
          = (Wire.reading, Throw RangeError)) as H.
  { apply (@handleArrayItem_too_long Json.runtime
             (Obj [("type", Str "item"); ("content", Str (Wire.filler 524288))])
             (Obj [("type", Str "item"); ("content", Str (Wire.filler 524288))])
             (Wire.filler 524288)).
    - reflexivity.
    - reflexivity.
    - reflexivity.
    - intros E. pose proof (filler_length 524288) as L.
      rewrite E in L. discriminate L.
    - change (Json.fits (String.length (Wire.filler 524288)) = false).
      unfold Json.fits. rewrite filler_length. reflexivity. }
  split; [apply filler_length |]. split; [exact H |].
  split; [| split; [exact Hv | split; [exact Hp | exact Hts]]].
  rewrite H. cbn [fst].
  change (streamBuffer Wire.reading) with (@nil string). cbn [app].
  intros E. apply (f_equal (@List.length string)) in E.
  rewrite length_chars in E. cbn [List.length] in E.
  pose proof (filler_length 524288) as L. rewrite <- E in L. discriminate L.
Qed.

(** C9 (amended): an element of a batch array is not handled like a line.
    With [data] the element, or its [json] field when that is truthy: an
    item with a non-empty string content that one call of [push] takes has
    that content queued as it is, whatever it is (a tag, a terminator, a
    JSON wrapper); an element whose type is none of item, replace and
    final, an end record among them, changes nothing.  On the line path the
    content <response> is a tag: it queues nothing and sets the tag
    flags. *)
Theorem batch_items_verbatim (rt : JSRuntime) (item data : value) (s : State) :
  unwrapJson item = Ok data ->
  (forall c, getProp "type" data = Ok (Str "item") ->
             getProp "content" data = Ok (Str c) -> c <> "" ->
             Spread_fits (String.length c) = true ->
             handleArrayItem item s = (enqueue (Text.chars c) s, Ok tt)) /\
  (forall ty, getProp "type" data = Ok ty ->
              is_str ty "item" = false -> is_str ty "replace" = false ->
              is_str ty "final" = false ->
              handleArrayItem item s = (s, Ok tt)) /\
  (streamBuffer (fst (tagRules (Str "<response>") s)) = streamBuffer s /\
   hasSeenTags (fst (tagRules (Str "<response>") s)) = true /\
   isInResponseTag (fst (tagRules (Str "<response>") s)) = true).
Proof.
  intros Hu. split; [| split].
  - intros c Ht Hc Hne Hfit.
    rewrite (handleArrayItem_item item s Hu Ht Hc Hne), push_unfold, length_chars.
    now rewrite Hfit.
  - intros ty Ht H1 H2 H3. unfold handleArrayItem, bind, lift, ret.
    rewrite Hu, Ht, H1, H2, H3. reflexivity.
  - destruct s; cbn. now repeat split.
Qed.

Lemma batch_items_verbatim_witness :
  @handleArrayItem Json.runtime
    (Obj [("json", Obj [("type", Str "item"); ("content", Str "<response>")])])
    Wire.reading
  = (enqueue (Text.chars "<response>") Wire.reading, Ok tt).
Proof.
  refine (proj1 (@batch_items_verbatim Json.runtime
                   (Obj [("json", Obj [("type", Str "item");
                                       ("content", Str "<response>")])])
                   (Obj [("type", Str "item"); ("content", Str "<response>")])
                   Wire.reading eq_refl) "<response>" eq_refl eq_refl _ eq_refl).
  discriminate.
Defined.

(** ** Malformed input *)

Lemma onChunk_total (rt : JSRuntime) (chunk : string) (s : State) :
  exists s' c, onChunk chunk s = (s', Ok c) /\ phase s' = phase s.
Proof.
  destruct (onChunk_unfold chunk s) as (s0 & -> & _ & Hp & _).
  destruct (forLines_total (completeLines (buffer s ++ chunk)) s0)
    as (s' & c & -> & Hc & _).
  exists s', c. split; [reflexivity | congruence].
Qed.



(** ** Transport failures *)

Section FailureFacts.
Context {rt : JSRuntime}.

Lemma finally_stops (s : State) :
  phase (finally s) = Returned /\ isLoading (finally s) = false /\
  loadingInterval (finally s) = false /\
  messages (finally s) = messages s /\
  streamInterval (finally s) = streamInterval s /\
  timeouts (finally s) = timeouts s.
Proof.
  destruct s as [ms il li buf iv cc it rc fc st am bf fch ja ts ph ck].
  unfold finally, stopLoadingTimer. cbn. destruct li; cbn; now repeat split.
Qed.

Lemma catchError_spec (s : State) :
  messages (catchError s)
  = (removelast (messages s)
     ++ [mkMessage error (Str "Error connecting to server. Please try again.")
           (clock s)])%list /\
  streamInterval (catchError s) = false /\
  timeouts (catchError s) = timeouts s.
Proof.
  destruct s as [ms il li buf iv cc it rc fc st am bf fch ja ts ph ck].
  unfold catchError, replaceLast, stopSmoothStream. cbn.
  destruct iv, buf; cbn; now repeat split.
Qed.

Lemma runCallback_phase (cb : Callback) (s : State) :
  phase (runCallback cb s) = phase s.
Proof.
  destruct s as [ms il li buf iv cc it rc fc st am bf fch ja ts ph ck].
  destruct cb; cbn; unfold stopLoadingTimer; cbn.
  - destruct li; reflexivity.
  - destruct (truthy cc), li; reflexivity.
Qed.

Lemma drain_exit (s : State) :
  phase (drain s) = Returned ->
  isLoading (drain s) = false /\ loadingInterval (drain s) = false.
Proof.
  unfold drain. destruct (streamBuffer s).
  - intros _. destruct (finally_stops (complete s)) as (_ & H1 & H2 & _).
    now split.
  - destruct s; cbn. discriminate.
Qed.

(** After the call has returned with the ticker stopped and no callback
    pending, nothing changes the transcript any more. *)
Lemma quiet_run (es : list Event) :
  forall s : State,
  phase s = Returned -> streamInterval s = false -> timeouts s = [] ->
  messages (run s es) = messages s.
Proof.
  induction es as [|e es IH]; intros s Hp Hi Ht; [reflexivity |].
  cbn [run fold_left].
  assert (messages (step s e) = messages s /\ phase (step s e) = Returned /\
          streamInterval (step s e) = false /\ timeouts (step s e) = [])
    as (Hm & Hp' & Hi' & Ht').
  { destruct s as [ms il li buf iv cc it rc fc st am bf fch ja ts ph ck].
    cbn in *. subst. destruct e; cbn; now repeat split. }
  rewrite <- Hm. now apply IH.
Qed.

End FailureFacts.

(** C7: a failure of the request or of the stream (a rejected fetch or
    read, a response that is not ok, a response without a body) replaces
    the last entry of the transcript, the partially streamed assistant
    message, by the fixed error message, stops the reveal and ends the call
    with the loading indicator stopped; with no callback pending, the
    transcript then stays as it is.  And on every path by which the call
    returns, failure or not, the loading flag is cleared and the loading
    timer is stopped. *)
Theorem failure_shows_error (rt : JSRuntime) (s : State) (e : Event) :
  (failure e (phase s) = true ->
   let s' := step s e in
   messages s'
   = (removelast (messages s)
      ++ [mkMessage error (Str "Error connecting to server. Please try again.")
            (clock s)])%list /\
   streamInterval s' = false /\ isLoading s' = false /\
   loadingInterval s' = false /\ phase s' = Returned /\
   (timeouts s = [] -> forall es, messages (run s' es) = messages s')) /\
  (phase s <> Returned -> phase (step s e) = Returned ->
   isLoading (step s e) = false /\ loadingInterval (step s e) = false).
Proof.
  split.
  - intros Hf.
    assert (step s e = finally (catchError s)) as ->.
    { unfold step, failure in *.
      destruct e as [ok body| | | | | | |]; destruct (phase s);
        try discriminate Hf; try reflexivity.
      apply negb_true_iff in Hf. now rewrite Hf. }
    cbn zeta.
    destruct (finally_stops (catchError s)) as (Hp & Hl & Hli & Hm & Hi & Ht).
    destruct (catchError_spec s) as (Hm' & Hi' & Ht').
    repeat split; try congruence.
    intros Hts es. apply quiet_run; congruence.
  - intros Hp Hr.
    destruct e as [ok body| |u| | | | |now]; unfold step in *.
    + destruct (phase s) eqn:Eph; try congruence.
      destruct (ok && body).
      * destruct s; cbn in *. discriminate.
      * destruct (finally_stops (catchError s)) as (_ & H1 & H2 & _).
        now split.
    + destruct (phase s) eqn:Eph; try congruence;
        destruct (finally_stops (catchError s)) as (_ & H1 & H2 & _);
        now split.
    + destruct (phase s) eqn:Eph; try congruence.
      destruct (onChunk_total rt u s) as (s' & c & Hc & Hph).
      rewrite Hc in *.
      destruct c; try congruence.
      destruct (finally_stops s') as (_ & H1 & H2 & _). now split.
    + destruct (phase s) eqn:Eph; try congruence.
      destruct (onResidue s) as [s' [[]|x]].
      * unfold afterStream in *.
        destruct (negb (truthy (finalContent s'))).
        -- now apply drain_exit.
        -- destruct (finally_stops s') as (_ & H1 & H2 & _). now split.
      * destruct (finally_stops (catchError s')) as (_ & H1 & H2 & _).
        now split.
    + destruct (tick_frame s) as [Hph _].
      assert (phase (if streamInterval s then tick s else s) = phase s)
        by exact Hph.
      destruct (phase s); congruence.
    + assert (phase match timeouts s with
                    | [] => s
                    | cb :: rest => runCallback cb (set_timeouts rest s)
                    end = phase s) as Hph.
      { destruct (timeouts s); [reflexivity |].
        rewrite runCallback_phase. now destruct s. }
      destruct (phase s); congruence.
    + destruct (phase s) eqn:Eph; try congruence.
      now apply drain_exit.
    + assert (phase (set_clock now s) = phase s) as Hph by now destruct s.
      destruct (phase s); congruence.
Qed.

Lemma failure_shows_error_witness :
  visibleText (@step Json.runtime
                 (Wire.go [Chunk (Wire.record "item" "Hello" ++ Wire.nl); Tick])
                 Rejected)
  = Str "Error connecting to server. Please try again.".
Proof.
  unfold visibleText.
  rewrite (proj1 (proj1 (@failure_shows_error Json.runtime
             (Wire.go [Chunk (Wire.record "item" "Hello" ++ Wire.nl); Tick])
             Rejected) eq_refl)).
  reflexivity.
Defined.

(** ** The end of a reply *)

Section EndFacts.
Context {rt : JSRuntime}.

(** From the state in which the stream is first read, a run without
    transport failure over a well-formed stream ends showing what the
    summary of the stream announces. *)
Lemma run_renders (prev : list Message) (userMessage now : string)
    (es : list Event) :
  noFailure es = true -> wellFormed (streamOf es) = true ->
  finished (run (connected prev userMessage now) es) ->
  visibleText (run (connected prev userMessage now) es) = render (streamOf es).
Proof.
  intros Hnf Hwf Hfin.
  apply finished_visible; [| assumption].
  change (streamOf es) with ("" ++ streamOf es).
  apply run_streaming; [apply connected_streaming | assumption | assumption].
Qed.


End EndFacts.



(** ** Chunking *)

(** C3 (as stated, it fails): the visible text is not always the
    concatenation of the item contents.  An item [a] followed by a replace
    record [b], in a stream with no terminator, ends showing [b]. *)
Lemma reveal_is_not_items_after_replace :
  streamOf [Chunk Wire.replaced; Done] = Wire.replaced /\
  @wellFormed Json.runtime Wire.replaced = true /\
  finished (Wire.go [Chunk Wire.replaced; Done]) /\
  visibleText (Wire.go [Chunk Wire.replaced; Done])
  <> Str (shown false false (@envelopes Json.runtime Wire.replaced)).
Proof.
  split; [vm_compute; reflexivity |]. split; [vm_compute; reflexivity |].
  split; [split; vm_compute; reflexivity |].
  vm_compute. discriminate.
Qed.

(** C3 (amended): for a stream of newline-terminated records none of which
    is a terminator, read without transport failure, the text shown when
    the reply is over does not depend on how the stream was cut into chunks
    nor on when ticks, callbacks and polls fell: it is the rendering of the
    text of the stream.  When the stream holds nothing but items (and lines
    that are ignored), each short enough for one call of [push], that is
    the concatenation, in order, of the item contents, without the tags and
    without the filler outside a tagged section. *)
Theorem reveal_independent_of_chunking (rt : JSRuntime)
    (prev : list Message) (userMessage now : string) (es1 es2 : list Event) :
  streamOf es1 = streamOf es2 ->
  wellFormed (streamOf es1) = true ->
  noFailure es1 = true -> noFailure es2 = true ->
  finished (run (connected prev userMessage now) es1) ->
  finished (run (connected prev userMessage now) es2) ->
  visibleText (run (connected prev userMessage now) es1)
  = visibleText (run (connected prev userMessage now) es2) /\
  visibleText (run (connected prev userMessage now) es1)
  = render (streamOf es1) /\
  (itemsOnly (envelopes (streamOf es1)) = true ->
   fitting (envelopes (streamOf es1)) = true ->
   visibleText (run (connected prev userMessage now) es1)
   = Str (shown false false (envelopes (streamOf es1)))).
Proof.
  intros Heq Hwf Hn1 Hn2 Hf1 Hf2.
  pose proof (run_renders prev userMessage now es1 Hn1 Hwf Hf1) as H1.
  rewrite Heq in Hwf.
  pose proof (run_renders prev userMessage now es2 Hn2 Hwf Hf2) as H2.
  split; [congruence |]. split; [assumption |].
  intros Hi Hfit. rewrite H1. unfold render, summary.
  now rewrite final_items.
Qed.

Lemma reveal_independent_of_chunking_witness :
  visibleText (Wire.go Wire.atOnce) = visibleText (Wire.go Wire.inPieces) /\
  visibleText (Wire.go Wire.atOnce) = Str "Hi there".
Proof.
  unfold Wire.go, Wire.reading.
  assert (finished (@run Json.runtime (@connected Json.runtime [] "hi" "12:00")
                      Wire.atOnce)) as F1
    by (split; vm_compute; reflexivity).
  assert (finished (@run Json.runtime (@connected Json.runtime [] "hi" "12:00")
                      Wire.inPieces)) as F2
    by (split; vm_compute; reflexivity).
  assert (streamOf Wire.atOnce = streamOf Wire.inPieces) as E
    by (vm_compute; reflexivity).
  assert (@wellFormed Json.runtime (streamOf Wire.atOnce) = true) as W
    by (vm_compute; reflexivity).
  assert (noFailure Wire.atOnce = true) as N1 by (vm_compute; reflexivity).
  assert (noFailure Wire.inPieces = true) as N2 by (vm_compute; reflexivity).
  assert (@itemsOnly (@envelopes Json.runtime (streamOf Wire.atOnce)) = true)
    as I by (vm_compute; reflexivity).
  assert (@fitting Json.runtime (@envelopes Json.runtime (streamOf Wire.atOnce))
          = true) as T by (vm_compute; reflexivity).
  pose proof (@reveal_independent_of_chunking Json.runtime [] "hi" "12:00"
                Wire.atOnce Wire.inPieces E W N1 N2 F1 F2) as (H1 & H2 & H3).
  split; [exact H1 |].
  rewrite (H3 I T). vm_compute. reflexivity.
Defined.

(** ** Departures from the specification *)

(** C1 (the code departs from it): the [break] that follows a terminator
    leaves the loop over the lines of the chunk, not the reading loop.  A
    record in the same chunk is skipped and the reply shows the text
    between the markers; a record in a later chunk is still obeyed, so a
    replace that arrives after the callback of the terminator has run
    overrides the final text.  [finalContentRef] is never assigned. *)
Theorem terminator_does_not_stop_later_chunks :
  visibleText (Wire.go [Chunk (Wire.terminated ++ Wire.afterwards); Timeout; Done])
  = Str "A" /\
  visibleText (Wire.go [Chunk Wire.terminated; Timeout; Chunk Wire.afterwards; Done])
  = Str "B" /\
  finished (Wire.go [Chunk Wire.terminated; Timeout; Chunk Wire.afterwards; Done]) /\
  finalContent (Wire.go [Chunk Wire.terminated; Timeout]) = Str "".
Proof.
  split; [vm_compute; reflexivity |].
  split; [vm_compute; reflexivity |].
  split; [split; vm_compute; reflexivity |].
  vm_compute; reflexivity.
Qed.

(** C2 (the code departs from it): the flag set when the first chunk
    starts with a bracket is never read.  Whatever the state, a chunk has
    its complete lines decoded one by one and leaves in [buffer] only what
    follows its last newline, so that only this remainder is parsed as an
    array when the stream ends: a batch array followed by a newline sets
    the flag and shows nothing, the same array without the newline shows
    its item. *)
Theorem array_payload_is_split_into_lines :
  (forall (rt : JSRuntime) (chunk : string) (s : State),
     exists s0, onChunk chunk s = forLines (completeLines (buffer s ++ chunk)) s0
                /\ buffer s0 = residue (buffer s ++ chunk)) /\
  isJsonArray (Wire.go [Chunk (Wire.batch ++ Wire.nl)]) = true /\
  visibleText (Wire.go [Chunk (Wire.batch ++ Wire.nl); Done; Tick; Tick; Poll])
  = Str "" /\
  finished (Wire.go [Chunk (Wire.batch ++ Wire.nl); Done; Tick; Tick; Poll]) /\
  visibleText (Wire.go [Chunk Wire.batch; Done; Tick; Tick; Poll]) = Str "Hi".
Proof.
  split.
  { intros rt chunk s.
    destruct (onChunk_unfold chunk s) as (s0 & H & Hb & _). eauto. }
  split; [vm_compute; reflexivity |].
  split; [vm_compute; reflexivity |].
  split; [split; vm_compute; reflexivity |].
  vm_compute; reflexivity.
Qed.

(** ** The examples of the specification *)

(** An item, then the end signal in a second chunk: the reply is over
    once the callback has run, and shows the item. *)
Example item_then_end :
  finished (Wire.go [Chunk (Wire.record "item" "Hello" ++ Wire.nl); Tick;
                     Chunk (Wire.signal "end" ++ Wire.nl); Timeout]) /\
  visibleText (Wire.go [Chunk (Wire.record "item" "Hello" ++ Wire.nl); Tick;
                        Chunk (Wire.signal "end" ++ Wire.nl); Timeout])
  = Str "Hello".
Proof.
  split; [split; vm_compute; reflexivity |]. vm_compute. reflexivity.
Qed.

(** A tagged section followed by its terminator shows the text between the
    markers. *)
Example tagged_then_terminator :
  visibleText
    (Wire.go [Chunk (Wire.tagged ++ Wire.record "item" "<end>Hi there</end>"
                     ++ Wire.nl);
              Tick; Tick; Timeout; Done])
  = Str "Hi there".
Proof. vm_compute. reflexivity. Qed.

(** A line that is not JSON is skipped and the item after it is shown. *)
Example garbled_line_skipped :
  visibleText (Wire.go [Chunk Wire.garbled; Tick; Tick; Done]) = Str "ok".
Proof. vm_compute. reflexivity. Qed.

(** A batch array with a wrapped item shows what the item alone shows as a
    line. *)
Example wrapped_batch_item :
  visibleText
    (Wire.go [Chunk ("[{" ++ Wire.q "json" ++ ":" ++ Wire.record "item" "Hi" ++ "}]");
              Done; Tick; Tick; Poll])
  = visibleText (Wire.go [Chunk (Wire.record "item" "Hi" ++ Wire.nl); Tick; Tick; Done]).
Proof. vm_compute. reflexivity. Qed.

(** * Further properties *)

(** ** What every step of a reply keeps *)

Section KeepingFacts.
Context {rt : JSRuntime}.

(** A computation that keeps, whether it returns or throws. *)
Definition KeepsM {A} (m : M A) : Prop := forall s, Keeps s (fst (m s)).

Lemma keeps_refl (s : State) : Keeps s s.
Proof. unfold Keeps. repeat split; auto. Qed.

Lemma keeps_trans (a b c : State) : Keeps a b -> Keeps b c -> Keeps a c.
Proof.
  unfold Keeps. intros (Ha & Hf & Hq & Hm) (Ha' & Hf' & Hq' & Hm').
  split; [congruence |]. split; [congruence |]. split; [auto |].
  intros Ho. destruct (Hm Ho) as [Ho1 Hm1].
  rewrite <- Ha in Ho1. destruct (Hm' Ho1) as [Ho2 Hm2].
  rewrite Ha in Ho2. split; [assumption |].
  destruct Hm2 as [Hm2 | (m' & Hr' & Hm2)].
  - rewrite Hm2. exact Hm1.
  - right. exists m'. rewrite Ha in Hr'. split; [assumption |].
    rewrite Hm2. f_equal.
    destruct Hm1 as [-> | (m & _ & ->)]; [reflexivity |].
    now rewrite removelast_last.
Qed.

Lemma chars_single (t : string) : Forall singleChar (Text.chars t).
Proof. induction t as [|c t IH]; constructor; [reflexivity | assumption]. Qed.

Ltac keeps_frame :=
  let s := fresh "s" in
  intros s; destruct s; unfold Keeps; cbn;
  repeat split; auto.

Lemma keeps_stop (s : State) : Keeps s (stopSmoothStream s).
Proof.
  destruct s as [ms il li buf iv cc it rc fc st am bf fch ja ts ph ck].
  unfold Keeps, stopSmoothStream. cbn.
  destruct iv, buf; cbn; repeat split; auto.
Qed.

Lemma keeps_enqueue (t : string) (s : State) :
  Keeps s (enqueue (Text.chars t) s).
Proof.
  destruct s. unfold Keeps, enqueue. cbn. repeat split; auto.
  intros H. apply Forall_app. split; [assumption | apply chars_single].
Qed.

Lemma keeps_replaceLast (c : value) (s : State) :
  Keeps s (replaceLast (withContent (assistantMessage s) c) s).
Proof.
  destruct s. unfold Keeps, replaceLast. cbn. repeat split; auto.
  right. eexists. split; [left; now exists c | reflexivity].
Qed.

(** Registering a callback that closes over the message of the call. *)
Lemma keeps_setTimeout (cb : Callback) (s : State) :
  closesOver (assistantMessage s) cb -> Keeps s (setTimeout cb s).
Proof.
  destruct s. unfold Keeps, setTimeout. cbn. intros Hcb.
  repeat split; auto.
  apply Forall_app. split; [assumption | now constructor].
Qed.

Lemma keeps_tick (s : State) : Keeps s (tick s).
Proof.
  destruct s as [ms il li buf iv cc it rc fc st am bf fch ja ts ph ck].
  unfold Keeps, tick. cbn. destruct buf as [|c buf]; cbn.
  - repeat split; auto.
  - unfold replaceLast. cbn.
    split; [reflexivity |]. split; [reflexivity |].
    split; [intros H; now inversion H |].
    intros Ho. split; [assumption |].
    right. eexists. split; [left; eexists; reflexivity | reflexivity].
Qed.

(** Running the oldest pending callback. *)
Lemma keeps_timeout (s : State) :
  Keeps s match timeouts s with
          | [] => s
          | cb :: rest => runCallback cb (set_timeouts rest s)
          end.
Proof.
  destruct s as [ms il li buf iv cc it rc fc st am bf fch ja ts ph ck].
  cbn. destruct ts as [|cb ts]; [apply keeps_refl |].
  unfold Keeps.
  destruct cb as [m f|m]; cbn; unfold stopLoadingTimer, replaceLast; cbn.
  - destruct li; cbn;
      (split; [reflexivity |]; split; [reflexivity |]; split; [auto |];
       intros Ho; inversion Ho as [|? ? Hcb Hts]; cbn in Hcb; subst;
       split; [assumption |];
       right; eexists; (split; [left; eexists; reflexivity | reflexivity])).
  - destruct (truthy cc), li; cbn;
      (split; [reflexivity |]; split; [reflexivity |]; split; [auto |];
       intros Ho; inversion Ho as [|? ? Hcb Hts]; cbn in Hcb; subst;
       split; [assumption |];
       first [ left; reflexivity
             | right; eexists;
               (split; [left; eexists; reflexivity | reflexivity]) ]).
Qed.

Lemma keeps_finally (s : State) : Keeps s (finally s).
Proof.
  destruct s as [ms il li buf iv cc it rc fc st am bf fch ja ts ph ck].
  unfold Keeps, finally, stopLoadingTimer. cbn.
  destruct li; cbn; repeat split; auto.
Qed.

Lemma keeps_catchError (s : State) : Keeps s (catchError s).
Proof.
  destruct s as [ms il li buf iv cc it rc fc st am bf fch ja ts ph ck].
  unfold Keeps, catchError, replaceLast, stopSmoothStream. cbn.
  destruct iv, buf; cbn; repeat split; auto;
    right; eexists; (split; [right; eexists; reflexivity | reflexivity]).
Qed.

Lemma keeps_complete (s : State) : Keeps s (complete s).
Proof.
  eapply keeps_trans; [apply keeps_stop |]. unfold complete.
  destruct (stopSmoothStream s)
    as [ms il li buf iv cc it rc fc st am bf fch ja ts ph ck].
  unfold Keeps, stopLoadingTimer. cbn. destruct li; cbn; repeat split; auto.
Qed.

Lemma keeps_drain (s : State) : Keeps s (drain s).
Proof.
  unfold drain. destruct (streamBuffer s) eqn:E.
  - eapply keeps_trans; [apply keeps_complete | apply keeps_finally].
  - clear E. revert s. keeps_frame.
Qed.

(** The rules by which a computation keeps. *)

Lemma keepsM_ret {A} (a : A) : KeepsM (ret a).
Proof. intros s. apply keeps_refl. Qed.

Lemma keepsM_lift {A} (r : result A) : KeepsM (lift r).
Proof. intros s. apply keeps_refl. Qed.

Lemma keepsM_gets {A} (f : State -> A) : KeepsM (gets f).
Proof. intros s. apply keeps_refl. Qed.

Lemma keepsM_modify (f : State -> State) :
  (forall s, Keeps s (f s)) -> KeepsM (modify f).
Proof. intros H s. apply H. Qed.

Lemma keepsM_bind {A B} (m : M A) (k : A -> M B) :
  KeepsM m -> (forall a, KeepsM (k a)) -> KeepsM (bind m k).
Proof.
  intros Hm Hk s. unfold bind. specialize (Hm s).
  destruct (m s) as [s1 [a|e]]; cbn in *; [| assumption].
  eapply keeps_trans; [eassumption | apply Hk].
Qed.

Lemma keepsM_try {A} (m : M A) (h : exn -> M A) :
  KeepsM m -> (forall e, KeepsM (h e)) -> KeepsM (try_catch m h).
Proof.
  intros Hm Hh s. unfold try_catch. specialize (Hm s).
  destruct (m s) as [s1 [a|e]]; cbn in *; [assumption |].
  eapply keeps_trans; [eassumption | apply Hh].
Qed.

(** Queueing the characters of a content. *)
Lemma keepsM_queue {A} (v : value) (k : M A) :
  KeepsM k ->
  KeepsM (chars <- lift (js_split_chars v) ;; push chars ;; k).
Proof.
  intros Hk s. unfold bind, lift.
  destruct v; cbn; try apply keeps_refl.
  rewrite push_unfold.
  destruct (Spread_fits (List.length (Text.chars s0))); cbn;
    [| apply keeps_refl].
  eapply keeps_trans; [apply keeps_enqueue | apply Hk].
Qed.

Lemma keepsM_queue_end (v : value) :
  KeepsM (chars <- lift (js_split_chars v) ;; push chars).
Proof.
  intros s. unfold bind, lift.
  destruct v; cbn; try apply keeps_refl.
  rewrite push_unfold.
  destruct (Spread_fits (List.length (Text.chars s0))); cbn;
    [apply keeps_enqueue | apply keeps_refl].
Qed.

Ltac keeps_setter :=
  let s := fresh "s" in
  intros s;
  first [ apply keeps_stop | apply keeps_replaceLast
        | apply keeps_setTimeout; reflexivity
        | destruct s; unfold Keeps; cbn; repeat split; now auto ].

Ltac keeps_prog :=
  repeat first
    [ apply keepsM_ret | apply keepsM_lift | apply keepsM_gets
    | apply keepsM_queue | apply keepsM_queue_end
    | apply keepsM_modify; keeps_setter
    | apply keepsM_bind; [| intros ]
    | match goal with
      | |- KeepsM (if ?b then _ else _) => destruct b
      | |- KeepsM (match ?x with _ => _ end) => destruct x
      end ].

Lemma keepsM_tagRules (content : value) : KeepsM (tagRules content).
Proof. unfold tagRules. keeps_prog. Qed.

Lemma keepsM_handleRecord (data : value) : KeepsM (handleRecord data).
Proof.
  unfold handleRecord.
  apply keepsM_bind; [keeps_prog | intros ty].
  apply keepsM_bind; [keeps_prog | intros c].
  destruct (is_str ty "item" && truthy c); [apply keepsM_tagRules |].
  keeps_prog.
Qed.

Lemma keepsM_handleLine (line : string) : KeepsM (handleLine line).
Proof.
  unfold handleLine. destruct (Text.nonempty (Text.trim line)); [| keeps_prog].
  apply keepsM_try; [| intros; keeps_prog].
  apply keepsM_bind; [unfold parse; keeps_prog | intros data].
  apply keepsM_handleRecord.
Qed.

Lemma keepsM_forLines (lines : list string) : KeepsM (forLines lines).
Proof.
  induction lines as [|line rest IH]; cbn [forLines]; [keeps_prog |].
  apply keepsM_bind; [apply keepsM_handleLine | intros c].
  destruct c; [assumption | keeps_prog | keeps_prog].
Qed.

Lemma keepsM_onChunk (chunk : string) : KeepsM (onChunk chunk).
Proof.
  unfold onChunk.
  apply keepsM_bind; [keeps_prog | intros first].
  apply keepsM_bind; [keeps_prog | intros _].
  apply keepsM_bind; [keeps_prog | intros _].
  apply keepsM_bind; [keeps_prog | intros _].
  apply keepsM_bind; [keeps_prog | intros lines].
  apply keepsM_bind; [keeps_prog | intros _].
  apply keepsM_forLines.
Qed.

Lemma keepsM_handleArrayItem (item : value) : KeepsM (handleArrayItem item).
Proof. unfold handleArrayItem. keeps_prog. Qed.

Lemma keepsM_forItems (items : list value) : KeepsM (forItems items).
Proof.
  induction items as [|item rest IH]; cbn [forItems]; [keeps_prog |].
  apply keepsM_bind; [apply keepsM_handleArrayItem | intros _; assumption].
Qed.

Lemma keepsM_onResidue : KeepsM onResidue.
Proof.
  unfold onResidue.
  apply keepsM_bind; [keeps_prog | intros text].
  destruct (Text.nonempty text); [| keeps_prog].
  apply keepsM_try; [| intros; keeps_prog].
  destruct (Text.startsWith text "[").
  - apply keepsM_bind; [unfold parse; keeps_prog | intros jsonArray].
    apply keepsM_bind; [keeps_prog | intros items].
    apply keepsM_forItems.
  - apply keepsM_bind; [unfold parse; keeps_prog | intros data].
    keeps_prog.
Qed.

(** Every event keeps. *)
Lemma keeps_step (s : State) (e : Event) : Keeps s (step s e).
Proof.
  assert (forall x, Keeps x (finally (catchError x))) as Hfail.
  { intros x. eapply keeps_trans; [apply keeps_catchError | apply keeps_finally]. }
  destruct e as [ok body| |u| | | | |now]; unfold step.
  - destruct (phase s); try apply keeps_refl.
    destruct (ok && body); [| apply Hfail].
    generalize s. keeps_frame.
  - destruct (phase s); try apply keeps_refl; apply Hfail.
  - destruct (phase s); try apply keeps_refl.
    pose proof (keepsM_onChunk u s) as H.
    destruct (onChunk u s) as [s' [c|x]]; cbn in H.
    + destruct c; try assumption.
      eapply keeps_trans; [eassumption | apply keeps_finally].
    + eapply keeps_trans; [eassumption | apply Hfail].
  - destruct (phase s); try apply keeps_refl.
    pose proof (keepsM_onResidue s) as H.
    destruct (onResidue s) as [s' [c|x]]; cbn in H.
    + eapply keeps_trans; [eassumption |].
      unfold afterStream. destruct (negb (truthy (finalContent s')));
        [apply keeps_drain | apply keeps_finally].
    + eapply keeps_trans; [eassumption | apply Hfail].
  - assert (Keeps s (if streamInterval s then tick s else s)) as H
      by (destruct (streamInterval s); [apply keeps_tick | apply keeps_refl]).
    destruct (phase s); exact H.
  - pose proof (keeps_timeout s) as H.
    destruct (phase s); exact H.
  - destruct (phase s); try apply keeps_refl. apply keeps_drain.
  - assert (Keeps s (set_clock now s)) as H by (generalize s; keeps_frame).
    destruct (phase s); exact H.
Qed.

Lemma keeps_run (es : list Event) : forall s, Keeps s (run s es).
Proof.
  induction es as [|e es IH]; intros s; [apply keeps_refl |].
  cbn. eapply keeps_trans; [apply keeps_step | apply IH].
Qed.

End KeepingFacts.


(** X11: [finalContentRef] is reset when a reply starts and never assigned
    afterwards: in every state of a reply it is the empty string, so the
    test of line 441 always passes and the end of the stream always goes
    through the waiting loop. *)
Theorem finalContent_never_assigned (rt : JSRuntime) (prev : list Message)
    (userMessage now : string) (es : list Event) :
  finalContent (run (start prev userMessage now) es) = Str "" /\
  afterStream (run (start prev userMessage now) es)
  = drain (run (start prev userMessage now) es).
Proof.
  destruct (keeps_run es (start prev userMessage now)) as (_ & Hf & _).
  cbn [start finalContent] in Hf. split; [assumption |].
  unfold afterStream. now rewrite Hf.
Qed.

(** ** The reveal ticker *)

Section TickerFacts.
Context {rt : JSRuntime}.

Lemma step_tick (s : State) :
  step s Tick = if streamInterval s then tick s else s.
Proof. unfold step. now destruct (phase s). Qed.

Lemma join_cons (c : string) (l : list string) :
  Text.join (c :: l) = c ++ Text.join l.
Proof.
  unfold Text.join. destruct l; cbn; [now rewrite append_nil_r | reflexivity].
Qed.

Lemma length_append (a b : string) :
  String.length (a ++ b) = String.length a + String.length b.
Proof. induction a as [|c a IH]; cbn; [reflexivity | now rewrite IH]. Qed.

(** What a tick that finds a character does. *)
Lemma tick_cons (s : State) (c : string) (q : list string) :
  streamBuffer s = c :: q ->
  streamBuffer (tick s) = q /\
  currentContent (tick s) = Str (ToString (currentContent s) ++ c) /\
  visibleText (tick s) = currentContent (tick s) /\
  streamInterval (tick s) = streamInterval s /\ phase (tick s) = phase s /\
  isLoading (tick s) = isLoading s /\ timeouts (tick s) = timeouts s.
Proof.
  destruct s as [ms il li buf iv cc it rc fc st am bf fch ja ts ph ck].
  cbn. intros ->. unfold tick. cbn. rewrite visibleText_replaceLast. cbn.
  unfold plus_string. destruct c; cbn; repeat split.
Qed.

(** [k] ticks move the first [k] elements of the queue, in order, to the
    end of the content. *)
Lemma run_ticks (k : nat) :
  forall s : State,
  streamInterval s = true ->
  streamBuffer (run s (repeat Tick k)) = skipn k (streamBuffer s) /\
  ToString (currentContent (run s (repeat Tick k)))
  = ToString (currentContent s) ++ Text.join (firstn k (streamBuffer s)) /\
  streamInterval (run s (repeat Tick k)) = true /\
  phase (run s (repeat Tick k)) = phase s /\
  isLoading (run s (repeat Tick k)) = isLoading s /\
  timeouts (run s (repeat Tick k)) = timeouts s.
Proof.
  induction k as [|k IH]; intros s Hi.
  - cbn. rewrite append_nil_r. now repeat split.
  - cbn [repeat run fold_left]. rewrite step_tick, Hi.
    destruct (streamBuffer s) as [|c q] eqn:Eq.
    + assert (tick s = s) as -> by (unfold tick; now rewrite Eq).
      destruct (IH s Hi) as (H1 & H2 & H3 & H4 & H5 & H6).
      rewrite Eq in *. rewrite skipn_nil in H1. rewrite firstn_nil in H2.
      now repeat split.
    + destruct (tick_cons s Eq) as (T1 & T2 & _ & T4 & T5 & T6 & T7).
      assert (streamInterval (tick s) = true) as Hi' by congruence.
      destruct (IH (tick s) Hi') as (H1 & H2 & H3 & H4 & H5 & H6).
      rewrite T1 in *. rewrite T2 in H2. cbn [ToString] in H2.
      cbn [skipn firstn]. rewrite join_cons, <- append_assoc.
      unfold run in *. repeat split; congruence.
Qed.

(** Stopping after a tick leaves the content that stopping before it
    leaves. *)
Lemma stop_after_tick (s : State) :
  currentContent (stopSmoothStream (tick s))
  = currentContent (stopSmoothStream s).
Proof.
  destruct s as [ms il li buf iv cc it rc fc st am bf fch ja ts ph ck].
  unfold tick, stopSmoothStream, replaceLast, plus_string. cbn.
  destruct buf as [|c q]; [reflexivity |].
  assert ((if Text.nonempty c then c else "") = c) as -> by now destruct c.
  destruct iv, q as [|c' q']; cbn; rewrite ?join_cons, ?append_nil_r;
    try reflexivity; now rewrite append_assoc.
Qed.

Lemma stop_after_run_ticks (k : nat) :
  forall s : State,
  streamInterval s = true ->
  currentContent (stopSmoothStream (run s (repeat Tick k)))
  = currentContent (stopSmoothStream s).
Proof.
  induction k as [|k IH]; intros s Hi; [reflexivity |].
  cbn [repeat run fold_left]. fold (run (step s Tick) (repeat Tick k)).
  rewrite step_tick, Hi.
  rewrite IH.
  - apply stop_after_tick.
  - destruct (streamBuffer s) as [|c q] eqn:Eq.
    + unfold tick. now rewrite Eq.
    + destruct (tick_cons s Eq) as (_ & _ & _ & T4 & _). congruence.
Qed.

Lemma run_ticks_idle (n : nat) :
  forall x : State, streamBuffer x = [] -> run x (repeat Tick n) = x.
Proof.
  induction n as [|n IHn]; intros x Hx; [reflexivity |].
  cbn [repeat run fold_left]. rewrite step_tick.
  assert (tick x = x) as Ht by (unfold tick; now rewrite Hx).
  rewrite Ht.
  destruct (streamInterval x); fold (run x (repeat Tick n)); now apply IHn.
Qed.

(** Once a tick has found a character, the transcript shows the content. *)
Lemma run_ticks_visible (k : nat) :
  forall s : State,
  streamInterval s = true -> streamBuffer s <> [] ->
  visibleText (run s (repeat Tick (S k)))
  = currentContent (run s (repeat Tick (S k))).
Proof.
  induction k as [|k IH]; intros s Hi Hne.
  - cbn [repeat run fold_left]. rewrite step_tick, Hi.
    destruct (streamBuffer s) as [|c q] eqn:Eq; [congruence |].
    now destruct (tick_cons s Eq) as (_ & _ & T3 & _).
  - change (repeat Tick (S (S k))) with (Tick :: repeat Tick (S k)).
    cbn [run fold_left]. fold (run (step s Tick) (repeat Tick (S k))).
    rewrite step_tick, Hi.
    destruct (streamBuffer s) as [|c q] eqn:Eq; [congruence |].
    destruct (tick_cons s Eq) as (T1 & _ & T3 & T4 & _).
    destruct q as [|c' q'].
    + now rewrite run_ticks_idle.
    + apply IH; [congruence | rewrite T1; discriminate].
Qed.

End TickerFacts.

(** X1: the reveal ticker moves the queue to the content one element per
    tick and in order: after [k] ticks of a running ticker, the queue has
    lost its first [k] elements and the content has gained exactly those,
    concatenated; once a tick has found a character, the transcript shows
    the content.  (The constant CHARS_PER_INTERVAL is not used.) *)
Theorem ticks_reveal_in_order (rt : JSRuntime) (s : State) (k : nat) :
  streamInterval s = true ->
  streamBuffer (run s (repeat Tick k)) = skipn k (streamBuffer s) /\
  ToString (currentContent (run s (repeat Tick k)))
  = ToString (currentContent s) ++ Text.join (firstn k (streamBuffer s)) /\
  (streamBuffer s <> [] ->
   visibleText (run s (repeat Tick (S k)))
   = currentContent (run s (repeat Tick (S k)))).
Proof.
  intros Hi. destruct (run_ticks k s Hi) as (H1 & H2 & _).
  split; [assumption |]. split; [assumption |].
  intros Hne. now apply run_ticks_visible.
Qed.

Lemma ticks_reveal_in_order_witness :
  streamBuffer
    (@run Json.runtime (Wire.go [Chunk (Wire.record "item" "Hello" ++ Wire.nl)])
       (repeat Tick 2))
  = ["l"; "l"; "o"].
Proof.
  assert (streamInterval
            (Wire.go [Chunk (Wire.record "item" "Hello" ++ Wire.nl)]) = true)
    as H by (vm_compute; reflexivity).
  rewrite (proj1 (@ticks_reveal_in_order Json.runtime
                    (Wire.go [Chunk (Wire.record "item" "Hello" ++ Wire.nl)])
                    2 H)).
  vm_compute. reflexivity.
Defined.

(** X2: no character is lost or reordered by the moment at which the
    reveal is stopped.  Stopping a running ticker after any number of ticks
    leaves the content that stopping it at once leaves. *)
Theorem stop_after_ticks (rt : JSRuntime) (s : State) (k : nat) :
  streamInterval s = true ->
  currentContent (stopSmoothStream (run s (repeat Tick k)))
  = currentContent (stopSmoothStream s).
Proof. apply stop_after_run_ticks. Qed.

Lemma stop_after_ticks_witness :
  currentContent
    (@stopSmoothStream Json.runtime
       (@run Json.runtime
          (Wire.go [Chunk (Wire.record "item" "Hello" ++ Wire.nl)])
          (repeat Tick 3)))
  = Str "Hello".
Proof.
  assert (streamInterval
            (Wire.go [Chunk (Wire.record "item" "Hello" ++ Wire.nl)]) = true)
    as H by (vm_compute; reflexivity).
  rewrite (@stop_after_ticks Json.runtime
             (Wire.go [Chunk (Wire.record "item" "Hello" ++ Wire.nl)]) 3 H).
  vm_compute. reflexivity.
Defined.

(** ** The waiting loop *)

Section WaitingFacts.
Context {rt : JSRuntime}.

Lemma step_poll (s : State) : phase s = Draining -> step s Poll = drain s.
Proof. intros H. unfold step. now rewrite H. Qed.

Lemma drain_returns (s : State) :
  streamBuffer s = [] ->
  phase (drain s) = Returned /\ isLoading (drain s) = false /\
  loadingInterval (drain s) = false /\ streamInterval (drain s) = false /\
  streamBuffer (drain s) = [] /\ currentContent (drain s) = currentContent s /\
  visibleText (drain s) = visibleText s.
Proof.
  destruct s as [ms il li buf iv cc it rc fc st am bf fch ja ts ph ck].
  cbn. intros ->.
  unfold drain, finally, complete, stopLoadingTimer, stopSmoothStream. cbn.
  destruct iv, li; cbn; now repeat split.
Qed.

Lemma drain_waits (s : State) :
  phase s = Draining -> streamBuffer s <> [] -> drain s = s.
Proof.
  destruct s as [ms il li buf iv cc it rc fc st am bf fch ja ts ph ck].
  cbn. intros -> H. unfold drain. cbn. destruct buf; [congruence | reflexivity].
Qed.


End WaitingFacts.

(** X3: with the reveal ticker running, the waiting loop that follows the
    end of the stream ends.  A poll that finds characters in the queue
    waits on; after as many ticks as the queue is long, the next poll makes
    [sendMessage] return with the queue empty, the whole queue appended to
    the content and shown, the ticker stopped and the loading flag and
    timer cleared. *)
Theorem waiting_loop_ends (rt : JSRuntime) (s : State) :
  phase s = Draining -> streamInterval s = true ->
  (forall k, k < List.length (streamBuffer s) ->
     phase (run s (repeat Tick k ++ [Poll])) = Draining) /\
  let s' := run s (repeat Tick (List.length (streamBuffer s)) ++ [Poll]) in
  phase s' = Returned /\ streamBuffer s' = [] /\
  currentContent s' = currentContent (stopSmoothStream s) /\
  (streamBuffer s <> [] -> visibleText s' = currentContent s') /\
  streamInterval s' = false /\ isLoading s' = false /\
  loadingInterval s' = false.
Proof.
  intros Hp Hi. split.
  - intros k Hk. unfold run. rewrite fold_left_app. cbn [fold_left].
    fold (run s (repeat Tick k)).
    destruct (run_ticks k s Hi) as (H1 & _ & _ & H4 & _).
    rewrite step_poll by congruence.
    rewrite drain_waits; [congruence | congruence |].
    rewrite H1. intros Hn.
    apply (f_equal (@List.length string)) in Hn.
    rewrite length_skipn in Hn. cbn in Hn. lia.
  - cbn zeta. unfold run. rewrite fold_left_app. cbn [fold_left].
    fold (run s (repeat Tick (List.length (streamBuffer s)))).
    set (n := List.length (streamBuffer s)).
    destruct (run_ticks n s Hi) as (H1 & _ & H3 & H4 & _).
    rewrite step_poll by congruence.
    assert (streamBuffer (run s (repeat Tick n)) = []) as Hq
      by (rewrite H1; apply skipn_all).
    destruct (drain_returns _ Hq) as (D1 & D2 & D3 & D4 & D5 & D6 & D7).
    assert (currentContent (run s (repeat Tick n))
            = currentContent (stopSmoothStream s)) as Hc.
    { rewrite <- (stop_after_run_ticks n s Hi).
      generalize Hq. generalize (run s (repeat Tick n)).
      intros x Hx.
      destruct x as [ms il li buf iv cc it rc fc st am bf fch ja ts ph ck].
      cbn in *. subst buf. unfold stopSmoothStream. cbn. now destruct iv. }
    split; [assumption |]. split; [assumption |].
    split; [congruence |].
    split; [| now repeat split].
    intros Hne. rewrite D7, D6.
    destruct n as [|n'] eqn:En.
    + destruct (streamBuffer s); [congruence | discriminate En].
    + now apply run_ticks_visible.
Qed.

Lemma waiting_loop_ends_witness :
  phase (@run Json.runtime
           (Wire.go [Chunk (Wire.record "item" "Hello" ++ Wire.nl); Done])
           (repeat Tick
              (List.length
                 (streamBuffer
                    (Wire.go [Chunk (Wire.record "item" "Hello" ++ Wire.nl); Done])))
            ++ [Poll]))
  = Returned.
Proof.
  assert (phase (Wire.go [Chunk (Wire.record "item" "Hello" ++ Wire.nl); Done])
          = Draining) as Hp by (vm_compute; reflexivity).
  assert (streamInterval
            (Wire.go [Chunk (Wire.record "item" "Hello" ++ Wire.nl); Done])
          = true) as Hi by (vm_compute; reflexivity).
  exact (proj1 (proj2 (@waiting_loop_ends Json.runtime
                         (Wire.go [Chunk (Wire.record "item" "Hello" ++ Wire.nl);
                                   Done]) Hp Hi))).
Defined.

Section StuckFacts.
Context {rt : JSRuntime}.


End StuckFacts.



(** X12: the queue only ever holds single characters, so a tick that finds
    the queue not empty lengthens the content by exactly one character,
    whatever the stream was. *)
Theorem one_character_per_tick (rt : JSRuntime) (prev : list Message)
    (userMessage now : string) (es : list Event) :
  let s := run (start prev userMessage now) es in
  Forall singleChar (streamBuffer s) /\
  (streamInterval s = true -> streamBuffer s <> [] ->
   String.length (ToString (currentContent (step s Tick)))
   = S (String.length (ToString (currentContent s)))).
Proof.
  cbn zeta.
  destruct (keeps_run es (start prev userMessage now)) as (_ & _ & Hq & _).
  specialize (Hq (Forall_nil _)). split; [assumption |].
  intros Hi Hne. rewrite step_tick, Hi.
  destruct (streamBuffer (run (start prev userMessage now) es))
    as [|c q] eqn:Eq; [congruence |].
  destruct (tick_cons _ Eq) as (_ & -> & _). cbn [ToString].
  rewrite length_append. inversion Hq as [|? ? Hc _]. rewrite Hc. lia.
Qed.

(** ** The terminator *)

Section TerminatorFacts.
Context {rt : JSRuntime}.

Lemma indexOf_range (s p : string) :
  Text.indexOf s p = (-1)%Z \/ (0 <= Text.indexOf s p)%Z.
Proof.
  induction s as [|c s IH]; cbn [Text.indexOf].
  - destruct (String.prefix p ""); [right; lia | now left].
  - destruct (String.prefix p (String c s)); [right; lia |].
    destruct (Z.ltb_spec (Text.indexOf s p) 0); [now left | right; lia].
Qed.

Lemma includes_indexOf (s p : string) :
  Text.includes s p = negb (Text.indexOf s p <? 0)%Z.
Proof.
  induction s as [|c s IH]; cbn [Text.includes Text.indexOf].
  - destruct (String.prefix p ""); reflexivity.
  - destruct (String.prefix p (String c s)); [reflexivity |].
    cbn [orb]. rewrite IH.
    destruct (Z.ltb_spec (Text.indexOf s p) 0); [reflexivity |].
    cbn. symmetry. apply negb_true_iff. apply Z.ltb_ge. lia.
Qed.

Lemma includes_angle_cons (a : ascii) (s : string) :
  Text.includes (String a s) "<" = false ->
  a <> "<"%char /\ Text.includes s "<" = false.
Proof.
  cbn [Text.includes String.prefix].
  destruct (ascii_dec "<" a) as [E | Hne]; cbn [String.prefix orb].
  - intros H. destruct s; discriminate H.
  - intros H. split; [congruence | assumption].
Qed.

(** A pattern that starts with an angle bracket is not found inside a text
    without one. *)
Lemma indexOf_skip (pre s p : string) :
  Text.includes pre "<" = false ->
  Text.indexOf (pre ++ s) (String "<" p)
  = if (Text.indexOf s (String "<" p) <? 0)%Z then (-1)%Z
    else (Z.of_nat (String.length pre) + Text.indexOf s (String "<" p))%Z.
Proof.
  induction pre as [|a pre IH]; intros Hpre.
  - cbn [append String.length Z.of_nat].
    destruct (indexOf_range s (String "<" p)) as [-> | H]; [reflexivity |].
    destruct (Z.ltb_spec (Text.indexOf s (String "<" p)) 0); lia.
  - apply includes_angle_cons in Hpre. destruct Hpre as [Ha Hpre].
    cbn [append Text.indexOf String.prefix].
    destruct (ascii_dec "<" a) as [E | _]; [congruence |].
    rewrite (IH Hpre).
    destruct (Z.ltb_spec (Text.indexOf s (String "<" p)) 0) as [Hlt | Hge].
    + reflexivity.
    + destruct (Z.ltb_spec
                  (Z.of_nat (String.length pre) + Text.indexOf s (String "<" p)) 0);
        [lia |].
      cbn [String.length]. lia.
Qed.

Lemma prefix_app (p r : string) : String.prefix p (p ++ r) = true.
Proof.
  induction p as [|a p IH]; [now destruct r |].
  cbn. now destruct (ascii_dec a a).
Qed.

Lemma indexOf_prefix (p r : string) : Text.indexOf (p ++ r) p = 0%Z.
Proof.
  pose proof (prefix_app p r) as H.
  destruct (p ++ r); cbn [Text.indexOf]; now rewrite H.
Qed.

Lemma substring_skip (a b : string) (n : nat) :
  String.substring (String.length a) n (a ++ b) = String.substring 0 n b.
Proof. induction a as [|c a IH]; cbn; [reflexivity | assumption]. Qed.

Lemma substring_take (m r : string) :
  String.substring 0 (String.length m) (m ++ r) = m.
Proof. induction m as [|c m IH]; cbn; [now destruct r | now rewrite IH]. Qed.

(** Where the two markers are found, and what lies between them. *)
Lemma markers_found (pre mid post : string) :
  Text.includes pre "<" = false -> Text.includes mid "<" = false ->
  let content := pre ++ "<end>" ++ mid ++ "</end>" ++ post in
  Text.indexOf content "<end>" = Z.of_nat (String.length pre) /\
  Text.indexOf content "</end>"
  = Z.of_nat (String.length pre + 5 + String.length mid) /\
  Text.substring content (Text.indexOf content "<end>" + 5)
    (Text.indexOf content "</end>") = mid.
Proof.
  intros Hpre Hmid. cbn zeta.
  assert (Text.indexOf (pre ++ "<end>" ++ mid ++ "</end>" ++ post) "<end>"
          = Z.of_nat (String.length pre)) as H1.
  { rewrite (@indexOf_skip pre _ _ Hpre).
    rewrite indexOf_prefix.
    destruct (Z.ltb_spec 0 0); lia. }
  assert (Text.indexOf (pre ++ "<end>" ++ mid ++ "</end>" ++ post) "</end>"
          = Z.of_nat (String.length pre + 5 + String.length mid)) as H2.
  { rewrite (@indexOf_skip pre _ _ Hpre).
    assert (Text.indexOf ("<end>" ++ mid ++ "</end>" ++ post) "</end>"
            = Z.of_nat (5 + String.length mid)) as ->.
    { assert (Text.indexOf ("<end>" ++ mid ++ "</end>" ++ post) "</end>"
              = if (Text.indexOf (("end>" ++ mid) ++ "</end>" ++ post) "</end>" <? 0)%Z
                then (-1)%Z
                else (Text.indexOf (("end>" ++ mid) ++ "</end>" ++ post) "</end>" + 1)%Z)
        as -> by reflexivity.
      rewrite (@indexOf_skip ("end>" ++ mid)); [| cbn; exact Hmid].
      rewrite indexOf_prefix.
      rewrite length_append. cbn [String.length].
      destruct (Z.ltb_spec 0 0); [lia |].
      destruct (Z.ltb_spec (Z.of_nat (4 + String.length mid) + 0) 0); lia. }
    destruct (Z.ltb_spec (Z.of_nat (5 + String.length mid)) 0); lia. }
  split; [assumption |]. split; [assumption |].
  rewrite H1, H2. unfold Text.substring, Text.clamp.
  rewrite !length_append. cbn [String.length].
  set (lp := String.length pre). set (lm := String.length mid).
  set (lq := String.length post).
  replace (Z.min (Z.max (Z.of_nat lp + 5) 0) (Z.of_nat (lp + (5 + (lm + (6 + lq))))))
    with (Z.of_nat (lp + 5)) by lia.
  replace (Z.min (Z.max (Z.of_nat (lp + 5 + lm)) 0)
             (Z.of_nat (lp + (5 + (lm + (6 + lq))))))
    with (Z.of_nat (lp + 5 + lm)) by lia.
  replace (Z.min (Z.of_nat (lp + 5)) (Z.of_nat (lp + 5 + lm)))
    with (Z.of_nat (lp + 5)) by lia.
  replace (Z.max (Z.of_nat (lp + 5)) (Z.of_nat (lp + 5 + lm)) - Z.of_nat (lp + 5))%Z
    with (Z.of_nat lm) by lia.
  rewrite !Nat2Z.id.
  replace (pre ++ "<end>" ++ mid ++ "</end>" ++ post)
    with ((pre ++ "<end>") ++ mid ++ "</end>" ++ post)
    by (now rewrite append_assoc).
  replace (lp + 5) with (String.length (pre ++ "<end>"))
    by (rewrite length_append; reflexivity).
  rewrite substring_skip. apply substring_take.
Qed.

End TerminatorFacts.

(** X5: an item whose content holds the two markers, with no other angle
    bracket before the closing one, ends the reply with the text between
    them.  For a content [pre <end> mid </end> post] where [pre] and [mid]
    hold no angle bracket, the tag rules stop the reveal, register the
    finalization for the trimmed [mid] and leave the loop over the lines;
    when that callback runs, the content and the visible text are the
    trimmed [mid] and the loading flag is cleared, whatever had been
    streamed before. *)
Theorem terminator_text_between_markers (rt : JSRuntime)
    (pre mid post : string) (s : State) :
  Text.includes pre "<" = false -> Text.includes mid "<" = false ->
  let content := pre ++ "<end>" ++ mid ++ "</end>" ++ post in
  let s1 := setTimeout (FinalizeTerminator (assistantMessage s) (Text.trim mid))
              (stopSmoothStream s) in
  tagRules (Str content) s = (s1, Ok Break) /\
  (timeouts s = [] ->
   visibleText (step s1 Timeout) = Str (Text.trim mid) /\
   currentContent (step s1 Timeout) = Str (Text.trim mid) /\
   isLoading (step s1 Timeout) = false /\
   streamInterval (step s1 Timeout) = false /\
   streamBuffer (step s1 Timeout) = []).
Proof.
  intros Hpre Hmid. cbn zeta.
  destruct (@markers_found pre mid post Hpre Hmid) as (H1 & H2 & H3).
  cbn zeta in *.
  set (content := pre ++ "<end>" ++ mid ++ "</end>" ++ post) in *.
  assert (Text.includes content "<end>" = true) as I1
    by (rewrite includes_indexOf, H1; apply negb_true_iff, Z.ltb_ge; lia).
  assert (Text.includes content "</end>" = true) as I2
    by (rewrite includes_indexOf, H2; apply negb_true_iff, Z.ltb_ge; lia).
  assert (String.eqb content "<response>" = false) as E1.
  { apply String.eqb_neq. intros E. rewrite E in I1. discriminate I1. }
  assert (String.eqb content "</response>" = false) as E2.
  { apply String.eqb_neq. intros E. rewrite E in I1. discriminate I1. }
  split.
  - unfold tagRules, bind, lift, ret, modify.
    cbn [is_str js_includes js_indexOf js_substring].
    rewrite E1, E2, I1, I2. cbn [andb].
    now rewrite H3, stopSmoothStream_assistantMessage.
  - intros Ht.
    destruct s as [ms il li buf iv cc it rc fc st am bf fch ja ts ph ck].
    cbn in Ht. subst ts.
    unfold step, setTimeout, stopSmoothStream, visibleText, replaceLast. cbn.
    destruct iv, buf, ph, li; cbn;
      rewrite map_app; cbn [map]; rewrite last_last; cbn;
      repeat split; reflexivity.
Qed.

Lemma terminator_text_between_markers_witness :
  @tagRules Json.runtime (Str ("Done. " ++ "<end>" ++ " Hi there " ++ "</end>" ++ "!"))
    Wire.reading
  = (setTimeout (FinalizeTerminator (assistantMessage Wire.reading)
                   (Text.trim " Hi there "))
       (@stopSmoothStream Json.runtime Wire.reading), Ok Break).
Proof.
  refine (proj1 (@terminator_text_between_markers Json.runtime
                   "Done. " " Hi there " "!" Wire.reading _ _)).
  - vm_compute. reflexivity.
  - vm_compute. reflexivity.
Defined.

(** ** The carry-over buffer *)

Section BufferFacts.
Context {rt : JSRuntime}.

(** What follows the last newline holds no newline. *)
Lemma residue_single (t : string) :
  Text.split_newline (residue t) = [residue t].
Proof.
  unfold residue. induction t as [|c t IH]; [reflexivity |].
  cbn [Text.split_newline].
  pose proof (split_newline_nonempty t) as Hne.
  destruct (Ascii.eqb c Text.newline) eqn:Ec.
  - destruct (Text.split_newline t) as [|h l]; [congruence | exact IH].
  - destruct (Text.split_newline t) as [|h l]; [congruence |].
    destruct l as [|h' l'].
    + cbn [last] in *. cbn [Text.split_newline]. rewrite Ec, IH. reflexivity.
    + exact IH.
Qed.

Lemma reading_step (s : State) (e : Event) :
  phase s = Reading ->
  (phase (step s e) = Reading /\
   buffer (step s e)
   = match e with
     | Chunk u => residue (buffer s ++ u)
     | _ => buffer s
     end /\ e <> Done)
  \/ phase (step s e) = Draining \/ phase (step s e) = Returned.
Proof.
  intros Hp.
  assert (forall x, phase (finally x) = Returned) as Hf
    by (intros x; destruct x as [? ? li ? ? ? ? ? ? ? ? ? ? ? ? ? ?];
        unfold finally, stopLoadingTimer; cbn; destruct li; reflexivity).
  destruct e as [ok body| |u| | | | |now].
  - left. unfold step. rewrite Hp. repeat split; [assumption | discriminate].
  - right. right. unfold step. rewrite Hp. apply Hf.
  - unfold step. rewrite Hp.
    destruct (onChunk_unfold u s) as (s0 & -> & Hb0 & Hp0 & _).
    destruct (forLines_total (completeLines (buffer s ++ u)) s0)
      as (s' & c & -> & Hc).
    destruct Hc as (Hph & _ & _ & _ & Hbuf & _).
    destruct c.
    + left. repeat split; [congruence | congruence | discriminate].
    + left. repeat split; [congruence | congruence | discriminate].
    + right. right. apply Hf.
  - right. now apply done_past_reading.
  - left. rewrite step_tick. destruct (tick_frame s) as [H1 H2].
    repeat split; [congruence | assumption | discriminate].
  - left. unfold step.
    assert (phase match timeouts s with
                  | [] => s
                  | cb :: rest => runCallback cb (set_timeouts rest s)
                  end = phase s /\
            buffer match timeouts s with
                   | [] => s
                   | cb :: rest => runCallback cb (set_timeouts rest s)
                   end = buffer s) as [H1 H2].
    { destruct s as [ms il li buf iv cc it rc fc st am bf fch ja ts ph ck].
      cbn. destruct ts as [|cb ts]; [now split |].
      destruct cb; cbn; unfold stopLoadingTimer; cbn.
      - destruct li; now split.
      - destruct (truthy cc), li; now split. }
    destruct (phase s); repeat split; congruence || discriminate.
  - left. unfold step. rewrite Hp. repeat split; [assumption | discriminate].
  - left. unfold step.
    assert (phase (set_clock now s) = phase s /\ buffer (set_clock now s) = buffer s)
      as [H1 H2] by (destruct s; now split).
    destruct (phase s); repeat split; congruence || discriminate.
Qed.

Lemma reading_buffer (es : list Event) :
  forall (s : State) (t : string),
  phase s = Reading -> buffer s = residue t ->
  phase (run s es) = Reading ->
  buffer (run s es) = residue (t ++ streamOf es).
Proof.
  induction es as [|e es IH]; intros s t Hp Hb Hr.
  - cbn. now rewrite append_nil_r.
  - cbn [run fold_left] in *. fold (run (step s e) es) in *.
    destruct (@reading_step s e Hp) as [(Hp' & Hb' & Hne) | Hpast].
    + destruct e as [ok body| |u| | | | |now]; try congruence;
        try (cbn [streamOf]; apply IH; [assumption | congruence | assumption]).
      cbn [streamOf]. rewrite <- append_assoc.
      apply IH; [assumption | | assumption].
      rewrite Hb', Hb. symmetry. apply residue_app.
    + destruct (past_reading_run es _ Hpast) as [H | H];
        rewrite H in Hr; discriminate Hr.
Qed.

End BufferFacts.

(** X6: while the stream is read, the carry-over buffer is what follows the
    last newline of everything received so far, and so holds no newline
    itself: for a reply whose buffer is the remainder of a text [t], after
    any events that leave [sendMessage] reading, the buffer is the
    remainder of [t] followed by the chunks delivered. *)
Theorem buffer_is_the_incomplete_line (rt : JSRuntime) (s : State)
    (t : string) (es : list Event) :
  phase s = Reading -> buffer s = residue t ->
  phase (run s es) = Reading ->
  buffer (run s es) = residue (t ++ streamOf es) /\
  Text.split_newline (buffer (run s es)) = [buffer (run s es)].
Proof.
  intros Hp Hb Hr. rewrite (@reading_buffer rt es s t Hp Hb Hr).
  split; [reflexivity | apply residue_single].
Qed.

Lemma buffer_is_the_incomplete_line_witness :
  buffer (@run Json.runtime Wire.reading
            [Chunk (String.substring 0 20 Wire.tagged); Tick;
             Chunk (String.substring 20 60 Wire.tagged)])
  = residue ("" ++ streamOf
               [Chunk (String.substring 0 20 Wire.tagged); Tick;
                Chunk (String.substring 20 60 Wire.tagged)]).
Proof.
  assert (phase Wire.reading = Reading) as Hp by (vm_compute; reflexivity).
  assert (buffer Wire.reading = residue "") as Hb by (vm_compute; reflexivity).
  assert (phase (@run Json.runtime Wire.reading
                   [Chunk (String.substring 0 20 Wire.tagged); Tick;
                    Chunk (String.substring 20 60 Wire.tagged)]) = Reading)
    as Hr by (vm_compute; reflexivity).
  exact (proj1 (@buffer_is_the_incomplete_line Json.runtime Wire.reading ""
                  [Chunk (String.substring 0 20 Wire.tagged); Tick;
                   Chunk (String.substring 20 60 Wire.tagged)] Hp Hb Hr)).
Defined.

(** ** What is left when the stream ends *)

Section ResidueFacts.
Context {rt : JSRuntime}.

Lemma enqueue_enqueue (a b : list string) (s : State) :
  enqueue b (enqueue a s) = enqueue (a ++ b) s.
Proof. destruct s. unfold enqueue. cbn. now rewrite List.app_assoc. Qed.

Lemma enqueue_nil (s : State) : enqueue [] s = s.
Proof. destruct s. unfold enqueue. cbn. now rewrite List.app_nil_r. Qed.

Lemma forItems_items (items : list value) (cs : list string) :
  Forall2 itemOf items cs ->
  Forall (fun c => Spread_fits (String.length c) = true) cs ->
  forall s, forItems items s = (enqueue (Text.chars (Text.join cs)) s, Ok tt).
Proof.
  induction 1 as [|item c items cs Hi _ IH]; intros Hfit s.
  - cbn. now rewrite enqueue_nil.
  - inversion Hfit as [|? ? Hc Hcs]; subst.
    destruct Hi as (data & Hu & Ht & Hcont & Hne).
    cbn [forItems]. unfold bind.
    rewrite (handleArrayItem_item item s Hu Ht Hcont Hne), push_unfold,
      length_chars, Hc.
    rewrite (IH Hcs), enqueue_enqueue, join_cons, chars_app. reflexivity.
Qed.


Lemma onResidue_array (s : State) (text : string) :
  Text.trim (buffer s) = text -> Text.nonempty text = true ->
  Text.startsWith text "[" = true ->
  onResidue s
  = match JSON_parse text with
    | Some jsonArray =>
        match iterate jsonArray with
        | Ok items =>
            match forItems items s with
            | (s', _) => (s', Ok tt)
            end
        | Throw _ => (s, Ok tt)
        end
    | None => (s, Ok tt)
    end.
Proof.
  intros Ht Hn Hs. unfold onResidue, bind, gets, try_catch, parse, lift, ret.
  rewrite Ht, Hn, Hs.
  destruct (JSON_parse text) as [v|]; [| reflexivity].
  destruct (iterate v) as [items|x]; [| reflexivity].
  destruct (forItems items s) as [s' [[]|x]]; reflexivity.
Qed.




End ResidueFacts.

(** X7: a single record left without newline at the end of the stream is
    handled by its own rule, not as a line.  When the remainder does not
    start with a bracket and parses to [data]: an item with a non-empty
    string content has that content queued as it is, with neither the tag
    rules nor the unwrapping of an output field, when one call of [push]
    takes it, and is dropped when it does not; a record of any other type,
    final, replace and end among them, changes nothing.  A remainder that
    does not parse changes nothing either. *)
Theorem residual_record_only_queues_items (rt : JSRuntime) (s : State) :
  Text.nonempty (Text.trim (buffer s)) = true ->
  Text.startsWith (Text.trim (buffer s)) "[" = false ->
  (forall data c,
     JSON_parse (Text.trim (buffer s)) = Some data ->
     getProp "type" data = Ok (Str "item") ->
     getProp "content" data = Ok (Str c) -> c <> "" ->
     (Spread_fits (String.length c) = true ->
      onResidue s = (enqueue (Text.chars c) s, Ok tt)) /\
     (Spread_fits (String.length c) = false -> onResidue s = (s, Ok tt))) /\
  (forall data ty,
     JSON_parse (Text.trim (buffer s)) = Some data ->
     getProp "type" data = Ok ty -> is_str ty "item" = false ->
     onResidue s = (s, Ok tt)) /\
  (JSON_parse (Text.trim (buffer s)) = None -> onResidue s = (s, Ok tt)).
Proof.
  intros Hn Hs. split; [| split].
  - intros data c Hp Ht Hc Hne.
    assert (onResidue s
            = if Spread_fits (String.length c)
              then (enqueue (Text.chars c) s, Ok tt) else (s, Ok tt)) as ->.
    { unfold onResidue, bind, gets, try_catch, parse, lift, ret.
      rewrite Hn, Hs, Hp, Ht. cbn [is_str]. rewrite Hc.
      destruct c as [|a c]; [congruence |].
      change (String.eqb "item" "item") with true.
      cbn [truthy Text.nonempty andb js_split_chars].
      rewrite push_unfold, length_chars.
      now destruct (Spread_fits (String.length (String a c))). }
    split; intros ->; reflexivity.
  - intros data ty Hp Ht Hi. now apply (residual_other_ignored s Hn Hs Hp Ht).
  - intros Hp.
    unfold onResidue, bind, gets, try_catch, parse, lift, ret.
    rewrite Hn, Hs, Hp. reflexivity.
Qed.

(** An end record with no newline after it changes nothing. *)
Lemma residual_record_only_queues_items_witness :
  @onResidue Json.runtime
    (Wire.go [Chunk (Wire.signal "end")])
  = (Wire.go [Chunk (Wire.signal "end")], Ok tt).
Proof.
  assert (Text.nonempty
            (Text.trim (buffer (Wire.go [Chunk (Wire.signal "end")])))
          = true) as Hn by (vm_compute; reflexivity).
  assert (Text.startsWith
            (Text.trim (buffer (Wire.go [Chunk (Wire.signal "end")])))
            "[" = false) as Hs by (vm_compute; reflexivity).
  refine (proj1 (proj2 (@residual_record_only_queues_items Json.runtime
                          (Wire.go [Chunk (Wire.signal "end")])
                          Hn Hs))
            (Obj [("type", Str "end")])
            (Str "end") _ _ _).
  - vm_compute. reflexivity.
  - reflexivity.
  - reflexivity.
Defined.

(** X8: a batch array of items queues the concatenation of their contents.
    When the remainder starts with a bracket and parses to an array each
    element of which is an item with a non-empty string content (bare or
    under a json field) that one call of [push] takes, handling it queues
    the characters of all the contents, in order, and changes nothing
    else. *)
Theorem batch_queues_all_items (rt : JSRuntime) (s : State)
    (items : list value) (cs : list string) :
  Text.nonempty (Text.trim (buffer s)) = true ->
  Text.startsWith (Text.trim (buffer s)) "[" = true ->
  JSON_parse (Text.trim (buffer s)) = Some (Arr items) ->
  Forall2 itemOf items cs ->
  Forall (fun c => Spread_fits (String.length c) = true) cs ->
  onResidue s = (enqueue (Text.chars (Text.join cs)) s, Ok tt).
Proof.
  intros Hn Hs Hp Hi Hfit.
  rewrite (onResidue_array s eq_refl Hn Hs), Hp. cbn [iterate].
  now rewrite (forItems_items Hi Hfit).
Qed.

Lemma batch_queues_all_items_witness :
  @onResidue Json.runtime
    (Wire.go [Chunk ("[" ++ Wire.record "item" "Hi" ++ ","
                     ++ Wire.record "item" "<response>" ++ "]")])
  = (enqueue ["H"; "i"; "<"; "r"; "e"; "s"; "p"; "o"; "n"; "s"; "e"; ">"]
       (Wire.go [Chunk ("[" ++ Wire.record "item" "Hi" ++ ","
                        ++ Wire.record "item" "<response>" ++ "]")]),
     Ok tt).
Proof.
  refine (@batch_queues_all_items Json.runtime _
            [Obj [("type", Str "item"); ("content", Str "Hi")];
             Obj [("type", Str "item"); ("content", Str "<response>")]]
            ["Hi"; "<response>"] _ _ _ _ _).
  - vm_compute. reflexivity.
  - vm_compute. reflexivity.
  - vm_compute. reflexivity.
  - repeat constructor;
      (eexists; split; [reflexivity |]; split; [reflexivity |];
       split; [reflexivity | discriminate]).
  - repeat constructor.
Defined.



(** ** Submitting *)

Section SubmitFacts.
Context {rt : JSRuntime}.

(** What a submission that passes the guard builds. *)
Lemma sendMessage_spec (inputMessage : string) (s : State) :
  Text.trim inputMessage <> "" -> isLoading s = false ->
  let userMessage := mkMessage user (Str (Text.trim inputMessage)) (clock s) in
  let reply := mkMessage assistant (Str "") (clock s) in
  let s1 := sendMessage inputMessage s in
  messages s1 = (messages s ++ [userMessage; reply])%list /\
  assistantMessage s1 = reply /\
  isLoading s1 = true /\ loadingInterval s1 = true /\
  streamInterval s1 = true /\ streamBuffer s1 = [] /\
  currentContent s1 = Str "" /\ finalContent s1 = Str "" /\
  isInResponseTag s1 = false /\ hasSeenTags s1 = false /\
  buffer s1 = "" /\ phase s1 = Fetching /\
  timeouts s1 = timeouts s /\ clock s1 = clock s.
Proof.
  intros Hn Hl. cbn zeta. unfold sendMessage. rewrite Hl.
  destruct (Text.trim inputMessage) as [|a t] eqn:Et; [congruence |].
  destruct s as [ms il li buf iv cc it rc fc st am bf fch ja ts ph ck].
  cbn. unfold startSmoothStream, startLoadingTimer. cbn.
  rewrite <- List.app_assoc. now repeat split.
Qed.

Lemma visibleText_last (ms : list Message) (m : Message) (s : State) :
  messages s = (ms ++ [m])%list -> visibleText s = content m.
Proof.
  intros H. unfold visibleText. rewrite H, map_app. cbn [map].
  now rewrite last_last.
Qed.

(** Once the response has come, the new reply is in step with the summary
    of an empty stream, whatever the previous reply left. *)
Lemma sendMessage_streaming (inputMessage : string) (s : State) :
  Text.trim inputMessage <> "" -> isLoading s = false -> timeouts s = [] ->
  Streaming (step (sendMessage inputMessage s) (Responded true true)) "".
Proof.
  intros Hn Hl Ht.
  destruct (sendMessage_spec inputMessage s Hn Hl)
    as (Hm & Ha & _ & _ & Hi & Hq & Hc & Hf & Hit & Hst & Hb & Hp & Hts & _).
  assert (visibleText (sendMessage inputMessage s) = Str "") as Hv.
  { change [mkMessage user (Str (Text.trim inputMessage)) (clock s);
            mkMessage assistant (Str "") (clock s)]
      with ([mkMessage user (Str (Text.trim inputMessage)) (clock s)]
            ++ [mkMessage assistant (Str "") (clock s)])%list in Hm.
    rewrite List.app_assoc in Hm. now rewrite (visibleText_last _ _ _ Hm). }
  unfold step. rewrite Hp. cbn [andb].
  destruct (sendMessage inputMessage s)
    as [ms il li buf iv cc it rc fc st am bf fch ja ts ph ck].
  unfold visibleText in Hv. cbn in *. subst.
  unfold Streaming. cbn.
  split; [reflexivity |]. split; [reflexivity |].
  unfold Tracks, visibleText. cbn.
  repeat split; try assumption.
  exists "", "". now repeat split.
Qed.

End SubmitFacts.

(** X13: [sendMessage] does nothing when the input is blank or a reply is
    loading.  Otherwise, the previous call being over and none of its
    callbacks pending, it appends the trimmed input and an empty assistant
    message to the transcript, and the reply that follows depends on its
    own stream alone: whatever the previous reply left in the queue, the
    content, the tag flags and the buffer, a well-formed stream read
    without failure ends showing its rendering, as a first reply does. *)
Theorem sendMessage_guards_and_resets (rt : JSRuntime)
    (inputMessage : string) (s : State) (es : list Event) :
  (Text.trim inputMessage = "" \/ isLoading s = true ->
   sendMessage inputMessage s = s) /\
  (Text.trim inputMessage <> "" -> isLoading s = false ->
   phase s = Returned -> timeouts s = [] ->
   let s1 := sendMessage inputMessage s in
   messages s1
   = (messages s
      ++ [mkMessage user (Str (Text.trim inputMessage)) (clock s);
          mkMessage assistant (Str "") (clock s)])%list /\
   isLoading s1 = true /\ phase s1 = Fetching /\
   (noFailure es = true -> wellFormed (streamOf es) = true ->
    finished (run s1 (Responded true true :: es)) ->
    visibleText (run s1 (Responded true true :: es)) = render (streamOf es))).
Proof.
  split.
  - intros [H | H]; unfold sendMessage.
    + now rewrite H.
    + rewrite H. now rewrite orb_true_r.
  - intros Hn Hl _ Ht. cbn zeta.
    destruct (sendMessage_spec inputMessage s Hn Hl)
      as (Hm & _ & Hl1 & _ & _ & _ & _ & _ & _ & _ & _ & Hp & _).
    split; [assumption |]. split; [assumption |]. split; [assumption |].
    intros Hnf Hwf Hfin. cbn [run fold_left] in *.
    fold (run (step (sendMessage inputMessage s) (Responded true true)) es) in *.
    apply finished_visible; [| assumption].
    change (streamOf es) with ("" ++ streamOf es).
    apply run_streaming; [| assumption | assumption].
    now apply sendMessage_streaming.
Qed.

Lemma sendMessage_guards_and_resets_witness :
  visibleText
    (@run Json.runtime
       (sendMessage "  again " (Wire.go [Chunk Wire.replaced; Done]))
       (Responded true true :: [Chunk Wire.hello; Timeout]))
  = @render Json.runtime (streamOf [Chunk Wire.hello; Timeout]).
Proof.
  refine (proj2 (proj2 (proj2
            (proj2 (@sendMessage_guards_and_resets Json.runtime "  again "
                      (Wire.go [Chunk Wire.replaced; Done])
                      [Chunk Wire.hello; Timeout]) _ _ _ _))) _ _ _).
  - vm_compute. discriminate.
  - vm_compute. reflexivity.
  - vm_compute. reflexivity.
  - vm_compute. reflexivity.
  - vm_compute. reflexivity.
  - vm_compute. reflexivity.
  - split; vm_compute; reflexivity.
Defined.

(** X17: a new submission does not cancel a callback the previous reply
    left pending, and the callback writes the message it closed over.  When
    it runs during the new reply, a terminator's callback replaces the
    entry of the new reply by the previous assistant message, with its
    time, holding the previous final text; the callback of an end record
    finds the content empty and leaves the transcript.  Both clear the
    loading flag and the loading timer although the new reply is still
    awaited. *)
Theorem pending_callback_survives_resubmission (rt : JSRuntime)
    (inputMessage : string) (s : State) (cb : Callback)
    (rest : list Callback) :
  Text.trim inputMessage <> "" -> isLoading s = false ->
  phase s = Returned -> timeouts s = cb :: rest ->
  let userMessage := mkMessage user (Str (Text.trim inputMessage)) (clock s) in
  let s1 := sendMessage inputMessage s in
  let s2 := step s1 Timeout in
  isLoading s1 = true /\ visibleText s1 = Str "" /\
  messages s2
  = (messages s
     ++ [userMessage;
         match cb with
         | FinalizeTerminator previous text => withContent previous (Str text)
         | FinalizeEnd _ => mkMessage assistant (Str "") (clock s)
         end])%list /\
  isLoading s2 = false /\ loadingInterval s2 = false /\
  phase s2 = Fetching /\ timeouts s2 = rest.
Proof.
  intros Hn Hl _ Ht. cbn zeta.
  destruct (sendMessage_spec inputMessage s Hn Hl)
    as (Hm & Ha & Hl1 & Hli & Hi & Hq & Hc & Hf & Hit & Hst & Hb & Hp & Hts & _).
  assert (visibleText (sendMessage inputMessage s) = Str "") as Hv.
  { change [mkMessage user (Str (Text.trim inputMessage)) (clock s);
            mkMessage assistant (Str "") (clock s)]
      with ([mkMessage user (Str (Text.trim inputMessage)) (clock s)]
            ++ [mkMessage assistant (Str "") (clock s)])%list in Hm.
    rewrite List.app_assoc in Hm. now rewrite (visibleText_last _ _ _ Hm). }
  split; [assumption |]. split; [assumption |].
  unfold step. rewrite Hts, Ht.
  destruct (sendMessage inputMessage s)
    as [ms il li buf iv cc it rc fc st am bf fch ja ts ph ck].
  cbn in *. subst.
  destruct cb as [previous text | previous]; cbn;
    unfold stopLoadingTimer, replaceLast; cbn.
  - change [mkMessage user (Str (Text.trim inputMessage)) (clock s);
            mkMessage assistant (Str "") (clock s)]
      with ([mkMessage user (Str (Text.trim inputMessage)) (clock s)]
            ++ [mkMessage assistant (Str "") (clock s)])%list.
    rewrite List.app_assoc, removelast_last, <- List.app_assoc.
    now repeat split.
  - now repeat split.
Qed.

Lemma pending_callback_survives_resubmission_witness :
  visibleText
    (@step Json.runtime
       (sendMessage "  again " (Wire.go [Chunk Wire.terminated; Done]))
       Timeout)
  = Str "A".
Proof.
  assert (timeouts (Wire.go [Chunk Wire.terminated; Done])
          = [FinalizeTerminator (mkMessage assistant (Str "") "12:00") "A"])
    as Ht by (vm_compute; reflexivity).
  assert (Text.trim "  again " <> "") as Hn by (vm_compute; discriminate).
  assert (isLoading (Wire.go [Chunk Wire.terminated; Done]) = false) as Hl
    by (vm_compute; reflexivity).
  assert (phase (Wire.go [Chunk Wire.terminated; Done]) = Returned) as Hp
    by (vm_compute; reflexivity).
  pose proof (@pending_callback_survives_resubmission Json.runtime "  again "
                (Wire.go [Chunk Wire.terminated; Done]) _ _ Hn Hl Hp Ht)
    as (_ & _ & Hm & _).
  unfold visibleText. rewrite Hm. vm_compute. reflexivity.
Defined.

(** ** White space around a record *)

Section TrimFacts.

Lemma trimEnd_space (s : string) (c : ascii) :
  Text.is_space c = true ->
  Text.trimEnd (s ++ String c "") = Text.trimEnd s.
Proof.
  intros Hc. induction s as [|a s IH]; cbn.
  - now rewrite Hc.
  - now rewrite IH.
Qed.

Lemma trim_space_after (s : string) (c : ascii) :
  Text.is_space c = true -> Text.trim (s ++ String c "") = Text.trim s.
Proof.
  intros Hc. unfold Text.trim. induction s as [|a s IH]; cbn.
  - now rewrite Hc.
  - destruct (Text.is_space a); [assumption |].
    apply (trimEnd_space (String a s) c Hc).
Qed.

End TrimFacts.

(** X14: white space around a record does not matter.  A line preceded or
    followed by a white space character, a carriage return in particular,
    is handled exactly as the line alone, so a stream whose lines end in
    CR LF is read like one whose lines end in LF. *)
Theorem whitespace_around_record (rt : JSRuntime) (line : string) (c : ascii)
    (s : State) :
  Text.is_space c = true ->
  handleLine (line ++ String c "") s = handleLine line s /\
  handleLine (String c line) s = handleLine line s.
Proof.
  intros Hc. unfold handleLine.
  rewrite (trim_space_after line c Hc).
  assert (Text.trim (String c line) = Text.trim line) as ->
    by (unfold Text.trim; cbn; now rewrite Hc).
  now split.
Qed.

Lemma whitespace_around_record_witness :
  @handleLine Json.runtime (Wire.record "item" "Hello" ++ String "013" "")
    Wire.reading
  = @handleLine Json.runtime (Wire.record "item" "Hello") Wire.reading.
Proof.
  exact (proj1 (@whitespace_around_record Json.runtime
                  (Wire.record "item" "Hello") "013" Wire.reading eq_refl)).
Defined.

(** ** The loading flag *)


(** X15: during a reply the loading flag is cleared at two places only:
    where [sendMessage] returns, and in a finalization callback.  A step
    that clears it either ends the call or is the run of a pending
    callback; chunks, ticks, polls and the end of a stream that still has
    characters to reveal leave it set. *)
Theorem loading_cleared_only_at_the_end (rt : JSRuntime) (s : State)
    (e : Event) :
  isLoading s = true -> isLoading (step s e) = false ->
  phase (step s e) = Returned \/ (e = Timeout /\ timeouts s <> []).
Proof.
  intros Hl Hc.
  assert (forall x, phase (finally x) = Returned) as Hf
    by (intros x; destruct x as [? ? li ? ? ? ? ? ? ? ? ? ? ? ? ? ?];
        unfold finally, stopLoadingTimer; cbn; destruct li; reflexivity).
  assert (forall x, isLoading x = true -> isLoading (drain x) = false ->
                    phase (drain x) = Returned) as Hd.
  { intros x Hx Hx'. unfold drain in *. destruct (streamBuffer x).
    - apply Hf.
    - destruct x; cbn in *. congruence. }
  destruct e as [ok body| |u| | | | |now]; unfold step in *.
  - destruct (phase s); try congruence.
    destruct (ok && body); [destruct s; cbn in *; congruence | left; apply Hf].
  - destruct (phase s); try congruence; left; apply Hf.
  - destruct (phase s); try congruence.
    destruct (onChunk_unfold u s) as (s0 & H0 & _ & _ & Hl0 & _).
    rewrite H0 in *.
    destruct (forLines_total (completeLines (buffer s ++ u)) s0)
      as (s' & c & H' & Hs).
    rewrite H' in *. destruct Hs as (_ & Hl' & _).
    destruct c; [congruence | congruence | left; apply Hf].
  - destruct (phase s); try congruence.
    pose proof (sameM_onResidue s) as (_ & Hl' & _).
    destruct (onResidue s) as [s' [[]|x]]; cbn [fst] in Hl'.
    + unfold afterStream in *.
      destruct (negb (truthy (finalContent s')));
        [left; apply Hd; congruence | left; apply Hf].
    + left. apply Hf.
  - exfalso.
    assert (isLoading (if streamInterval s then tick s else s) = isLoading s) as H.
    { destruct (streamInterval s); [| reflexivity].
      destruct s as [ms il li buf iv cc it rc fc st am bf fch ja ts ph ck].
      unfold tick. cbn. now destruct buf. }
    destruct (phase s); congruence.
  - right. split; [reflexivity |].
    destruct (timeouts s); [| discriminate].
    destruct (phase s); congruence.
  - destruct (phase s); try congruence. left. now apply Hd.
  - exfalso.
    assert (isLoading (set_clock now s) = isLoading s) as H by now destruct s.
    destruct (phase s); congruence.
Qed.

Lemma loading_cleared_only_at_the_end_witness :
  phase (@step Json.runtime
           (Wire.go [Chunk (Wire.record "item" "Hello" ++ Wire.nl)])
           (Chunk (Wire.signal "end" ++ Wire.nl))) = Returned
  \/ (Chunk (Wire.signal "end" ++ Wire.nl) = Timeout /\
      timeouts (Wire.go [Chunk (Wire.record "item" "Hello" ++ Wire.nl)]) <> []).
Proof.
  refine (@loading_cleared_only_at_the_end Json.runtime
            (Wire.go [Chunk (Wire.record "item" "Hello" ++ Wire.nl)])
            (Chunk (Wire.signal "end" ++ Wire.nl)) _ _).
  - vm_compute. reflexivity.
  - vm_compute. reflexivity.
Defined.

(** ** An item too long to be queued *)

Section LongItemFacts.
Context {rt : JSRuntime}.

(** What the tag rules do with a text too long for one call of [push]
    that is neither a tag nor a terminator. *)
Lemma tagRules_long (t : string) (s : State) :
  t <> "<response>" -> t <> "</response>" ->
  Text.includes t "<end>" && Text.includes t "</end>" = false ->
  Spread_fits (String.length t) = false ->
  tagRules (Str t) s
  = if isInResponseTag s || negb (hasSeenTags s)
    then (s, Throw RangeError) else (s, Ok Next).
Proof.
  intros H1 H2 Hterm Hfit.
  apply String.eqb_neq in H1. apply String.eqb_neq in H2.
  unfold tagRules, push, bind, lift, ret, modify, gets.
  cbn [is_str js_includes js_split_chars]. rewrite H1, H2.
  rewrite length_chars, Hfit.
  destruct (Text.includes t "<end>"); cbn [andb] in Hterm |- *.
  - rewrite Hterm.
    destruct (isInResponseTag s); [reflexivity |].
    destruct (hasSeenTags s); [| reflexivity].
    now destruct (Text.includes t "<").
  - destruct (isInResponseTag s); [reflexivity |].
    destruct (hasSeenTags s); [| reflexivity].
    now destruct (Text.includes t "<").
Qed.

End LongItemFacts.

Lemma filler_cons (n : positive) :
  exists r, Wire.filler n = String "a" r.
Proof.
  unfold Wire.filler. destruct n as [|n] using Pos.peano_ind.
  - now exists "".
  - rewrite Pos.iter_succ. eauto.
Qed.

Lemma filler_no_angle (n : positive) (p : string) :
  Text.includes (Wire.filler n) (String "<" p) = false.
Proof.
  unfold Wire.filler. induction n as [|n IH] using Pos.peano_ind.
  - cbn. now destruct p.
  - rewrite Pos.iter_succ. cbn [Text.includes String.prefix].
    destruct (ascii_dec "<" "a") as [E | _]; [discriminate E |].
    exact IH.
Qed.

Lemma filler_not_json (n : positive) : Json.parse (Wire.filler n) = None.
Proof.
  destruct (filler_cons n) as [r ->]. unfold Json.parse.
  set (fuel := (2 * String.length (String "a" r) + 2)%nat).
  destruct fuel; reflexivity.
Qed.

(** X18: an item too long for one call of [push] is lost without a trace.
    For a record of type item whose content, unwrapped, is a text that is
    neither a tag nor a terminator and does not fit: where the tag rules
    queue (inside a tagged section, or before any tag) the call throws; in
    every state the [catch] of line 390 leaves the state as it was and the
    loop goes on with the next line. *)
Theorem long_item_is_dropped (rt : JSRuntime) (data c : value) (t : string)
    (s : State) :
  getProp "type" data = Ok (Str "item") ->
  getProp "content" data = Ok c -> truthy c = true ->
  unwrapOutput c = Str t ->
  t <> "<response>" -> t <> "</response>" ->
  Text.includes t "<end>" && Text.includes t "</end>" = false ->
  Spread_fits (String.length t) = false ->
  (isInResponseTag s = true \/ hasSeenTags s = false ->
   handleRecord data s = (s, Throw RangeError)) /\
  (forall line rest,
     Text.nonempty (Text.trim line) = true ->
     JSON_parse (Text.trim line) = Some data ->
     handleLine line s = (s, Ok Next) /\
     forLines (line :: rest) s = forLines rest s).
Proof.
  intros Ht Hc Htr Hu H1 H2 Hterm Hfit.
  pose proof (tagRules_long s H1 H2 Hterm Hfit) as Hrules.
  split.
  - intros Hq. unfold handleRecord, bind, lift. rewrite Ht.
    change (is_str (Str "item") "item") with true. cbn iota.
    rewrite Hc, Htr. cbn [andb]. unfold handleItem. rewrite Hu, Hrules.
    destruct Hq as [-> | ->]; [reflexivity |].
    now destruct (isInResponseTag s).
  - intros line rest Hn Hp.
    assert (handleLine line s = (s, Ok Next)) as Hline.
    { rewrite handleLine_decode, (decode_typed line Hn Hp Ht).
      change (is_str (Str "item") "item") with true. cbn iota.
      rewrite Hc, Htr, Hu. cbn [handleEnvelope]. unfold try_catch.
      rewrite Hrules.
      now destruct (isInResponseTag s || negb (hasSeenTags s)). }
    split; [assumption |].
    cbn [forLines]. unfold bind. now rewrite Hline.
Qed.

Lemma long_item_is_dropped_witness :
  @handleRecord Json.runtime
    (Obj [("type", Str "item"); ("content", Str (Wire.filler 524288))])
    Wire.reading
  = (Wire.reading, Throw RangeError).
Proof.
  refine (proj1 (@long_item_is_dropped Json.runtime
                   (Obj [("type", Str "item");
                         ("content", Str (Wire.filler 524288))])
                   (Str (Wire.filler 524288)) (Wire.filler 524288)
                   Wire.reading _ _ _ _ _ _ _ _) _).
  - reflexivity.
  - reflexivity.
  - destruct (filler_cons 524288) as [r ->]. reflexivity.
  - unfold unwrapOutput. cbn [ToString].
    change (@JSON_parse Json.runtime (Wire.filler 524288))
      with (Json.parse (Wire.filler 524288)).
    now rewrite filler_not_json.
  - destruct (filler_cons 524288) as [r ->]. discriminate.
  - destruct (filler_cons 524288) as [r ->]. discriminate.
  - now rewrite filler_no_angle.
  - change (Json.fits (String.length (Wire.filler 524288)) = false).
    unfold Json.fits. rewrite filler_length. reflexivity.
  - right. reflexivity.
Defined.

(** ** What is displayed *)

Section DisplayFacts.
Context {rt : JSRuntime}.
Variable E : Type.

Lemma bubblesFrom_typing (ms : list Message) :
  forall (index total i : nat) (isLoading : bool) (e e' : E) (b : Bubble E),
  nth_error (bubblesFrom index total ms isLoading e) i = Some b ->
  body b = Typing e' ->
  isLoading = true /\ index + i = total - 1 /\
  exists m, nth_error ms i = Some m /\ type m = assistant /\ content m = Str "".
Proof.
  induction ms as [|m ms IH]; intros index total i isLoading e e' b Hn Hb.
  - destruct i; discriminate Hn.
  - destruct i as [|i]; cbn in Hn.
    + injection Hn as <-.
      unfold MessageBubble, MessageContent in Hb.
      destruct (type m) eqn:Et; cbn in Hb; try discriminate Hb.
      destruct (content m) as [| |x|n|t|l|fs] eqn:Ec; cbn in Hb;
        try discriminate Hb;
        try (destruct (Number_truthy n); discriminate Hb);
        try (destruct x; discriminate Hb).
      destruct (String.eqb_spec t "") as [-> | Hne]; cbn in Hb.
      * destruct isLoading; cbn in Hb; [| discriminate Hb].
        destruct (Nat.eqb_spec index (total - 1)); cbn in Hb;
          [| discriminate Hb].
        split; [reflexivity |]. split; [lia |].
        exists m. now repeat split.
      * destruct t; [congruence | discriminate Hb].
    + destruct (IH (S index) total i isLoading e e' b Hn Hb) as (H1 & H2 & H3).
      split; [assumption |]. split; [lia | exact H3].
Qed.

End DisplayFacts.

(** X16: the typing indicator can be displayed in one place only: the last
    entry of the transcript, while the loading flag is set, when that entry
    is an assistant message whose content is the empty string.  And a
    message that is not from the assistant, the user's text and the error
    message, is never handed to the markdown renderer: it is displayed as
    plain text whatever it holds. *)
Theorem typing_indicator_only_on_last (rt : JSRuntime) (E : Type) (s : State)
    (elapsedTime : E) :
  (forall i b e',
     nth_error (bubbles s elapsedTime) i = Some b -> body b = Typing e' ->
     isLoading s = true /\ i = List.length (messages s) - 1 /\
     exists m, nth_error (messages s) i = Some m /\
               type m = assistant /\ content m = Str "") /\
  (forall m isLoading,
     type m <> assistant ->
     body (MessageBubble m isLoading elapsedTime) = PlainText (content m)).
Proof.
  split.
  - intros i b e' Hn Hb. unfold bubbles in Hn.
    destruct (bubblesFrom_typing _ _ _ _ _ _ Hn Hb) as (H1 & H2 & H3).
    split; [assumption |]. split; [lia | exact H3].
  - intros m l Hm. unfold MessageBubble, MessageContent.
    destruct (type m); [reflexivity | congruence | reflexivity].
Qed.
